(** * gato_experto: a console tic-tac-toe that learns its moves

    A shallow embedding of [gato_experto.py] and the properties of its
    board rules, its knowledge base and its move acquisition loops.

    Conventions of the embedding.
    - A Python [str] is a Rocq [string] whose characters are the code
      points U+0000..U+00FF (one [ascii] per code point, i.e. Latin-1).
    - A Python [int] is a [Z]; a [Dict[str, int]] is a [gmap string Z]
      (key order is not observable through the operations used here).
    - A Python exception is a constructor of [exn]; a computation that
      may raise returns a [result].
    - The objects [game] and [kb], the console and the knowledge file are
      the fields of one [state], threaded through the monad [M]. *)

From Stdlib Require Import ZArith Ascii String List Lia Bool Sorted.
From stdpp Require Import base option gmap strings list fin_maps pretty.

#[local] Set Warnings "-register-all".
Local Open Scope string_scope.
Local Open Scope Z_scope.

(** ** The Python runtime used by the program *)

Module Py.

(** The exception classes the program can meet. *)
Inductive exn : Set :=
| IndexError
| ValueError
| JSONDecodeError
| UnicodeDecodeError
| OSError
| TypeError
| AttributeError
| OverflowError
| EOFError.

(** [isinstance e cls] for the classes above: [JSONDecodeError] and
    [UnicodeDecodeError] derive from [ValueError]. *)
Definition isinstance (e cls : exn) : bool :=
  match cls, e with
  | ValueError, (ValueError | JSONDecodeError | UnicodeDecodeError) => true
  | IndexError, IndexError => true
  | JSONDecodeError, JSONDecodeError => true
  | UnicodeDecodeError, UnicodeDecodeError => true
  | OSError, OSError => true
  | TypeError, TypeError => true
  | AttributeError, AttributeError => true
  | OverflowError, OverflowError => true
  | EOFError, EOFError => true
  | _, _ => false
  end.

(** [except (c1, c2, ...)] catches an instance of any listed class. *)
Definition caught_by (classes : list exn) (e : exn) : bool :=
  existsb (isinstance e) classes.

Inductive result (A : Type) : Type :=
| Ok (a : A)
| Raise (e : exn).
Arguments Ok {A} a.
Arguments Raise {A} e.

#[export] Instance result_ret : MRet result := fun A a => Ok a.
#[export] Instance result_bind : MBind result := fun A B k r =>
  match r with
  | Ok a => k a
  | Raise e => Raise e
  end.

(** [l[i]]: a negative index counts from the end, anything out of range
    raises [IndexError]. *)
Definition getitem {A} (l : list A) (i : Z) : result A :=
  let j := if i <? 0 then i + Z.of_nat (length l) else i in
  if j <? 0 then Raise IndexError
  else match l !! Z.to_nat j with
       | Some x => Ok x
       | None => Raise IndexError
       end.

(** [l[i] = x], with the same indexing rule. *)
Definition setitem {A} (l : list A) (i : Z) (x : A) : result (list A) :=
  let j := if i <? 0 then i + Z.of_nat (length l) else i in
  if j <? 0 then Raise IndexError
  else match l !! Z.to_nat j with
       | Some _ => Ok (<[Z.to_nat j := x]> l)
       | None => Raise IndexError
       end.

(** [str.isspace] on one character of U+0000..U+00FF. *)
Definition isspace_char (c : ascii) : bool :=
  let n := nat_of_ascii c in
  ((9 <=? n) && (n <=? 13) || (28 <=? n) && (n <=? 32)
   || (n =? 133) || (n =? 160))%nat.

Fixpoint lstrip (s : string) : string :=
  match s with
  | String c rest => if isspace_char c then lstrip rest else s
  | EmptyString => EmptyString
  end.

(** [s.strip()]. *)
Definition strip (s : string) : string :=
  String.rev (lstrip (String.rev (lstrip s))).

(** The decimal characters of U+0000..U+00FF are '0'..'9'. *)
Definition decimal_char (c : ascii) : option Z :=
  let n := nat_of_ascii c in
  if ((48 <=? n) && (n <=? 57))%nat then Some (Z.of_nat n - 48) else None.

(** [str.isdigit] on one character: the decimal characters and the
    superscript digits U+00B2, U+00B3 and U+00B9. *)
Definition isdigit_char (c : ascii) : bool :=
  let n := nat_of_ascii c in
  ((48 <=? n) && (n <=? 57) || (n =? 178) || (n =? 179) || (n =? 185))%nat.

(** [s.isdigit()]: every character is a digit and there is at least one. *)
Definition isdigit (s : string) : bool :=
  match s with
  | EmptyString => false
  | _ => forallb isdigit_char (list_ascii_of_string s)
  end.

(** Whitespace that [int] skips around a literal. *)
Definition int_space_char (c : ascii) : bool :=
  let n := nat_of_ascii c in
  ((9 <=? n) && (n <=? 13) || (n =? 32) || (n =? 133) || (n =? 160))%nat.

(** The digits of a base-10 literal, [digit ("_"? digit)*], read left
    to right; [acc] is the value so far, [count] the digits seen. *)
Fixpoint int_digits (s : list ascii) (acc : Z) (count : N) (prev_us : bool)
  : option (Z * N) :=
  match s with
  | [] => if prev_us then None else Some (acc, count)
  | c :: rest =>
      if Ascii.eqb c "_"
      then if prev_us then None else int_digits rest acc count true
      else match decimal_char c with
           | Some d => int_digits rest (10 * acc + d) (count + 1)%N false
           | None => None
           end
  end.

Fixpoint drop_space (s : list ascii) : list ascii :=
  match s with
  | c :: rest => if int_space_char c then drop_space rest else s
  | [] => []
  end.

(** [int(s)] for a string [s]: optional surrounding whitespace, an
    optional sign, then the digits. Every failure is a [ValueError],
    including a literal of more than [max_digits] digits when that
    limit is not 0 (sys.get_int_max_str_digits). *)
Definition int_of_str (max_digits : N) (s : string) : result Z :=
  let body := rev (drop_space (rev (drop_space (list_ascii_of_string s)))) in
  let '(sign, digits) :=
    match body with
    | c :: rest =>
        if Ascii.eqb c "-" then (-1, rest)
        else if Ascii.eqb c "+" then (1, rest)
        else (1, body)
    | [] => (1, body)
    end in
  match digits with
  | [] => Raise ValueError
  | c :: _ =>
      if Ascii.eqb c "_" then Raise ValueError
      else match int_digits digits 0 0%N false with
           | Some (v, count) =>
               if (negb (max_digits =? 0) && (max_digits <? count))%N
               then Raise ValueError
               else Ok (sign * v)
           | None => Raise ValueError
           end
  end.

(** [sep.join(parts)]. *)
Definition join (sep : string) (parts : list string) : string :=
  String.concat sep parts.

End Py.
Export Py.

(** ** JSON documents, as [json.load] returns them *)

(** A binary float: not-a-number, an infinity, or [m * 2^e]. *)
Inductive pyfloat : Set :=
| FNaN
| FInf (negative : bool)
| FFinite (m e : Z).

Inductive json : Set :=
| JNull
| JBool (b : bool)
| JInt (n : Z)
| JFloat (f : pyfloat)
| JStr (s : string)
| JArr (elems : list json)
| JObj (items : list (string * json)).

(** What the program takes from its interpreter and the [json] module:
    the limit on the digits of an integer literal, [json.load] on the
    text of a file and [json.dump] with the options of [save]
    ([ensure_ascii=False, indent=2, sort_keys=True]). *)
Class Runtime : Type := {
  int_max_str_digits : N;
  json_load : string -> result json;
  json_dump : json -> string;
}.

(** ** The board and its rules: class [TicTacToe] *)

Module TicTacToe.

Definition HUMAN : string := "X".
Definition AI : string := "O".
Definition EMPTY : string := " ".

Definition WIN_PATTERNS : list (Z * Z * Z) :=
  [ (0, 1, 2); (3, 4, 5); (6, 7, 8);
    (0, 3, 6); (1, 4, 7); (2, 5, 8);
    (0, 4, 8); (2, 4, 6) ].

(** [self.board] after [__init__]. *)
Definition init_board : list string := replicate 9 EMPTY.

(** [0 <= position < 9 and self.board[position] == self.EMPTY]: the
    cell is read only when the range test holds. *)
Definition is_valid_move (board : list string) (position : Z) : result bool :=
  if (0 <=? position) && (position <? 9)
  then cell ← getitem board position; mret (String.eqb cell EMPTY)
  else mret false.

Definition apply_move (board : list string) (position : Z) (player : string)
  : result (list string) :=
  setitem board position player.

(** The scan of [check_winner] over the patterns still to be tried. The
    chained comparison reads [board[c]] only when the first two cells
    are equal. *)
Fixpoint scan_patterns (board : list string) (patterns : list (Z * Z * Z))
  : result (option string) :=
  match patterns with
  | [] => mret None
  | (a, b, c) :: rest =>
      xa ← getitem board a;
      xb ← getitem board b;
      if String.eqb xa xb
      then xc ← getitem board c;
           if String.eqb xb xc && negb (String.eqb xc EMPTY)
           then winner ← getitem board a; mret (Some winner)
           else scan_patterns board rest
      else scan_patterns board rest
  end.

Definition check_winner (board : list string) : result (option string) :=
  found ← scan_patterns board WIN_PATTERNS;
  match found with
  | Some winner => mret (Some winner)
  | None =>
      if negb (existsb (String.eqb EMPTY) board)
      then mret (Some "Empate")
      else mret None
  end.

Definition board_key (board : list string) : string :=
  Py.join "" board.

Definition available_moves (board : list string) : list Z :=
  omap (fun '(idx, value) =>
          if String.eqb value EMPTY then Some (Z.of_nat idx) else None)
       (imap pair board).

End TicTacToe.

(** ** The state of a session and the monad of the program *)

(** The file at [kb.file_path]: absent; present but not openable for
    reading; present with bytes that are not UTF-8; or a text. *)
Inductive file : Type :=
| Missing
| Unreadable
| Undecodable
| Text (contents : string).

Record state : Type := State {
  board : list string;      (* game.board *)
  moves : gmap string Z;    (* kb.moves *)
  stdin : list string;      (* the lines still to be read *)
  stdout : list string;     (* what was written, oldest first *)
  disk : file;              (* the file at kb.file_path *)
  writable : bool;          (* whether that path can be opened for writing *)
}.

Definition set_board (b : list string) (s : state) : state :=
  State b (moves s) (stdin s) (stdout s) (disk s) (writable s).
Definition set_moves (m : gmap string Z) (s : state) : state :=
  State (board s) m (stdin s) (stdout s) (disk s) (writable s).
Definition set_stdin (l : list string) (s : state) : state :=
  State (board s) (moves s) l (stdout s) (disk s) (writable s).
Definition set_stdout (l : list string) (s : state) : state :=
  State (board s) (moves s) (stdin s) l (disk s) (writable s).
Definition set_disk (f : file) (s : state) : state :=
  State (board s) (moves s) (stdin s) (stdout s) f (writable s).

(** A computation maps a state to its outcome, a value or a raised
    exception, and the state it leaves; [None] only when a loop has used
    up the steps it was given. *)
Definition M (A : Type) : Type := state -> option (result A * state).

#[export] Instance M_ret : MRet M := fun A a s => Some (Ok a, s).
#[export] Instance M_bind : MBind M := fun A B k c s =>
  match c s with
  | Some (Ok a, s') => k a s'
  | Some (Raise e, s') => Some (Raise e, s')
  | None => None
  end.

Definition lift {A} (r : result A) : M A := fun s => Some (r, s).
Definition raise {A} (e : exn) : M A := lift (Raise e).
Definition gets {A} (f : state -> A) : M A := fun s => Some (Ok (f s), s).
Definition modify (f : state -> state) : M unit := fun s => Some (Ok tt, f s).

(** [try: body except classes: handler]. What [body] did to the state
    before raising stays done. *)
Definition try_except {A} (body : M A) (classes : list exn) (handler : M A)
  : M A := fun s =>
  match body s with
  | Some (Raise e, s') =>
      if caught_by classes e then handler s' else Some (Raise e, s')
  | other => other
  end.

(** [while True: body]: [body] answers [inl l] to go round again with the
    loop variables [l] and [inr a] to leave the loop with [a]. *)
Fixpoint while_true {L A} (fuel : nat) (body : L -> M (L + A)) (l : L) : M A :=
  match fuel with
  | O => fun _ => None
  | S fuel' =>
      next ← body l;
      match next with
      | inl l' => while_true fuel' body l'
      | inr a => mret a
      end
  end.

(** A [while True] loop whose every pass starts by reading a line: one
    pass more than there are lines left always ends it. *)
Definition input_loop {A} (body : unit -> M (unit + A)) : M A := fun s =>
  while_true (S (length (stdin s))) body tt s.

(** [print(text)]. *)
Definition print (text : string) : M unit :=
  modify (fun s => set_stdout (stdout s ++ [text]) s).

(** [input(prompt)]: writes the prompt, then reads one line; at the end
    of the input it raises [EOFError]. *)
Definition input (prompt : string) : M string := fun s =>
  let s := set_stdout (stdout s ++ [prompt]) s in
  match stdin s with
  | line :: rest => Some (Ok line, set_stdin rest s)
  | [] => Some (Raise EOFError, s)
  end.

(** ** Conversions applied to what [json.load] returned *)

(** [int(f)] for a float: truncation towards zero. *)
Definition int_of_float (f : pyfloat) : result Z :=
  match f with
  | FNaN => Raise ValueError
  | FInf _ => Raise OverflowError
  | FFinite m e => Ok (if 0 <=? e then m * 2 ^ e else Z.quot m (2 ^ (- e)))
  end.

(** [int(value)]. *)
Definition py_int `{Runtime} (value : json) : result Z :=
  match value with
  | JInt n => Ok n
  | JBool b => Ok (if b then 1 else 0)
  | JFloat f => int_of_float f
  | JStr s => int_of_str int_max_str_digits s
  | JNull | JArr _ | JObj _ => Raise TypeError
  end.

(** [str(key)] for a key of a loaded object, which is a string already. *)
Definition py_str (key : string) : string := key.

(** [data.items()]: only an object has the method. *)
Definition dict_items (data : json) : result (list (string * json)) :=
  match data with
  | JObj items => Ok items
  | _ => Raise AttributeError
  end.

(** ** The knowledge base: class [KnowledgeBase] *)

Module KnowledgeBase.
Section WithRuntime.
Context `{Runtime}.

(** [{str(key): int(value) for key, value in items}], filling [acc]. *)
Fixpoint comprehension (items : list (string * json)) (acc : gmap string Z)
  : result (gmap string Z) :=
  match items with
  | [] => mret acc
  | (key, value) :: rest =>
      n ← py_int value;
      comprehension rest (<[py_str key := n]> acc)
  end.

(** [self.file_path.exists()]. *)
Definition path_exists : M bool :=
  gets (fun s => match disk s with Missing => false | _ => true end).

(** [with self.file_path.open("r", encoding="utf-8") as fh:
    data = json.load(fh)]. *)
Definition open_and_load : M json := fun s =>
  match disk s with
  | Missing | Unreadable => Some (Raise OSError, s)
  | Undecodable => Some (Raise UnicodeDecodeError, s)
  | Text contents => Some (json_load contents, s)
  end.

Definition _load : M unit :=
  present ← path_exists;
  if (present : bool) then
    try_except
      (data ← open_and_load;
       items ← lift (dict_items data);
       loaded ← lift (comprehension items ∅);
       modify (set_moves loaded))
      [JSONDecodeError; OSError; ValueError]
      (modify (set_moves ∅))
  else mret tt.

(** The document [json.dump] receives for a mapping. *)
Definition document (m : gmap string Z) : json :=
  JObj (map_to_list (JInt <$> m)).

Definition save : M unit := fun s =>
  if writable s
  then Some (Ok tt, set_disk (Text (json_dump (document (moves s)))) s)
  else Some (Raise OSError, s).

Definition get_move (board_key : string) : M (option Z) :=
  gets (fun s => moves s !! board_key).

Definition learn_move (board_key : string) (position : Z) : M unit :=
  modify (fun s => set_moves (<[board_key := position]> (moves s)) s);;
  save.

(** [KnowledgeBase(file_path)]. *)
Definition init : M unit :=
  modify (set_moves ∅);;
  _load.

End WithRuntime.
End KnowledgeBase.

(** ** The game object inside the session *)

Definition nl : string := String "010" "".

Module Game.

Definition is_valid_move (position : Z) : M bool := fun s =>
  lift (TicTacToe.is_valid_move (board s) position) s.

Definition apply_move (position : Z) (player : string) : M unit := fun s =>
  match TicTacToe.apply_move (board s) position player with
  | Ok b => Some (Ok tt, set_board b s)
  | Raise e => Some (Raise e, s)
  end.

Definition check_winner : M (option string) := fun s =>
  lift (TicTacToe.check_winner (board s)) s.

Definition board_key : M string :=
  gets (fun s => TicTacToe.board_key (board s)).

(** [row_str(start)] of [display]. *)
Definition row_str (board : list string) (start : Z) : result string :=
  cells ← mapM (fun i =>
                  cell ← getitem board (start + i);
                  if negb (String.eqb cell TicTacToe.EMPTY)
                  then getitem board (start + i)
                  else mret (pretty (start + i + 1)))
               [0; 1; 2];
  mret (Py.join " | " cells).

Definition display : M unit := fun s =>
  match mapM (row_str (board s)) [0; 3; 6] with
  | Ok rows =>
      print (nl +:+ Py.join (nl +:+ "---------" +:+ nl) rows +:+ nl) s
  | Raise e => Some (Raise e, s)
  end.

(** [TicTacToe()]. *)
Definition init : M unit := modify (set_board TicTacToe.init_board).

End Game.

(** ** The console messages *)

Module Msg.
(* Letters outside ASCII, by code point. *)
Definition a' : string := String "225" "".
Definition e' : string := String "233" "".
Definition i' : string := String "237" "".
Definition o' : string := String "243" "".
Definition u' : string := String "250" "".
Definition n' : string := String "241" "".
Definition bang : string := String "161" "".

Definition move_prompt : string := "Selecciona tu jugada (1-9): ".
Definition invalid_move : string :=
  "Jugada inv" +:+ a' +:+ "lida. Intenta nuevamente.".
Definition teach_intro : string :=
  "No conozco la mejor jugada para esta posici" +:+ o' +:+ "n. Ens"
  +:+ e' +:+ n' +:+ "ame cu" +:+ a' +:+ "l deber" +:+ i' +:+ "a jugar.".
Definition teach_howto : string :=
  "Introduce el n" +:+ u' +:+ "mero de la casilla (1-9) en la que deber"
  +:+ i' +:+ "a jugar la IA.".
Definition teach_prompt : string := "Movimiento correcto para la IA: ".
Definition invalid_teach : string :=
  "Entrada inv" +:+ a' +:+ "lida. Aseg" +:+ u'
  +:+ "rate de elegir una casilla disponible (1-9).".
Definition welcome : string :=
  "Bienvenido al juego del gato experto. T" +:+ u'
  +:+ " juegas con 'X' y comienzas.".
Definition ai_turn : string := "Turno de la IA...".
Definition draw : string := bang +:+ "Empate!".
Definition human_wins : string := bang +:+ "Felicidades! Has ganado.".
Definition ai_wins : string :=
  "La IA ha ganado. Gracias por ense" +:+ n' +:+ "arme.".
End Msg.

(** ** Obtaining a move *)

Section Session.
Context `{Runtime}.

(** One pass through the loop of [request_human_move]. *)
Definition request_human_move_body (_ : unit) : M (unit + Z) :=
  line ← input Msg.move_prompt;
  let choice := strip line in
  if isdigit choice then
    n ← lift (int_of_str int_max_str_digits choice);
    let position := n - 1 in
    valid ← Game.is_valid_move position;
    if (valid : bool) then mret (inr position)
    else print Msg.invalid_move;; mret (inl tt)
  else print Msg.invalid_move;; mret (inl tt).

Definition request_human_move : M Z :=
  input_loop request_human_move_body.

(** One pass through the loop of [ask_for_learning]. *)
Definition ask_for_learning_body (_ : unit) : M (unit + Z) :=
  line ← input Msg.teach_prompt;
  let answer := strip line in
  if isdigit answer then
    n ← lift (int_of_str int_max_str_digits answer);
    let position := n - 1 in
    valid ← Game.is_valid_move position;
    if (valid : bool) then
      key ← Game.board_key;
      KnowledgeBase.learn_move key position;;
      mret (inr position)
    else print Msg.invalid_teach;; mret (inl tt)
  else print Msg.invalid_teach;; mret (inl tt).

Definition ask_for_learning : M Z :=
  print Msg.teach_intro;;
  print Msg.teach_howto;;
  input_loop ask_for_learning_body.

Definition ai_move : M Z :=
  key ← Game.board_key;
  stored_move ← KnowledgeBase.get_move key;
  match stored_move with
  | Some stored =>
      valid ← Game.is_valid_move stored;
      if (valid : bool) then mret stored else ask_for_learning
  | None => ask_for_learning
  end.

(** ** One round *)

(** [if winner:] on an [Optional[str]]. *)
Definition truthy (winner : option string) : bool :=
  match winner with
  | Some text => negb (String.eqb text "")
  | None => false
  end.

(** The first half of a pass through the loop of [play_round]: show the
    board, obtain the move of [current_player] and apply it. *)
Definition take_turn (current_player : string) : M unit :=
  Game.display;;
  move ← (if String.eqb current_player TicTacToe.HUMAN
          then request_human_move
          else print Msg.ai_turn;; ai_move);
  Game.apply_move move current_player.

(** The second half: look for a winner, announce it and leave the loop,
    or hand the turn over. *)
Definition conclude_turn (current_player : string) : M (string + unit) :=
  winner ← Game.check_winner;
  if truthy winner then
    Game.display;;
    (if bool_decide (winner = Some "Empate") then print Msg.draw
     else if bool_decide (winner = Some TicTacToe.HUMAN)
          then print Msg.human_wins
          else print Msg.ai_wins);;
    mret (inr tt)
  else
    mret (inl (if String.eqb current_player TicTacToe.HUMAN
               then TicTacToe.AI else TicTacToe.HUMAN)).

Definition play_round_body (current_player : string) : M (string + unit) :=
  take_turn current_player;;
  conclude_turn current_player.

(** A round applies at most nine moves. *)
Definition play_round : M unit :=
  Game.init;;
  KnowledgeBase.init;;
  print Msg.welcome;;
  while_true 9 play_round_body TicTacToe.HUMAN.

End Session.

(** ** The session: [main] *)

Definition replay_prompt : string :=
  String "191" "" +:+ "Quieres jugar otra partida? (s/n): ".
Definition goodbye : string :=
  "Hasta luego. " +:+ Msg.bang +:+ "Gracias por ayudarme a aprender!".

(** [str.lower] on one character of U+0000..U+00FF: the capitals A..Z and
    U+00C0..U+00DE, the multiplication sign U+00D7 apart, move down by 32. *)
Definition lower_char (c : ascii) : ascii :=
  let n := nat_of_ascii c in
  if ((65 <=? n) && (n <=? 90)
      || (192 <=? n) && (n <=? 222) && negb (n =? 215))%nat
  then ascii_of_nat (n + 32)
  else c.

(** [s.lower()]. *)
Fixpoint lower (s : string) : string :=
  match s with
  | String c rest => String (lower_char c) (lower rest)
  | EmptyString => EmptyString
  end.

Section Main.
Context `{Runtime}.

(** One pass through the loop of [main]: a round, then the question. *)
Definition main_body (_ : unit) : M (unit + unit) :=
  play_round;;
  line ← input replay_prompt;
  let again := lower (strip line) in
  if negb (String.eqb again "s")
  then print goodbye;; mret (inr tt)
  else mret (inl tt).

(** Every pass that goes round again has read the answer to the
    question, so one pass more than there are lines ends the loop. *)
Definition main : M unit := fun s =>
  while_true (S (length (stdin s))) main_body tt s.

End Main.

(** ** Vocabulary of the properties *)

Import TicTacToe.

(** The two marks of the players. *)
Definition is_mark (m : string) : Prop := m = HUMAN \/ m = AI.

(** A board of the game: nine cells, each a mark or empty. *)
Definition valid_board (b : list string) : Prop :=
  length b = 9%nat /\ Forall (fun c => c = HUMAN \/ c = AI \/ c = EMPTY) b.

(** The three cells of a line all hold the mark [m]. *)
Definition line_won (b : list string) (m : string) (p : Z * Z * Z) : Prop :=
  let '(i, j, k) := p in
  b !! Z.to_nat i = Some m /\ b !! Z.to_nat j = Some m
  /\ b !! Z.to_nat k = Some m.

(** No mark holds the line. *)
Definition line_open (b : list string) (p : Z * Z * Z) : Prop :=
  forall m, is_mark m -> ~ line_won b m p.

(** The three indices of a pattern are cells of a board of [n] cells. *)
Definition pattern_in_range (n : Z) (p : Z * Z * Z) : Prop :=
  let '(i, j, k) := p in 0 <= i < n /\ 0 <= j < n /\ 0 <= k < n.

(** Among the patterns [ps], taken in order, the first line held by a
    mark is held by [m]. *)
Definition first_held (b : list string) (m : string) (ps : list (Z * Z * Z))
  : Prop :=
  exists (n : nat) p,
    ps !! n = Some p /\ line_won b m p
    /\ forall (n' : nat) q, (n' < n)%nat -> ps !! n' = Some q -> line_open b q.

(** [check_winner] answers a mark exactly when that mark holds a line. *)
Definition winner_iff_line (b : list string) : Prop :=
  forall m, is_mark m ->
    (check_winner b = Ok (Some m) <->
     exists p, p ∈ WIN_PATTERNS /\ line_won b m p).

(** A board on which both marks hold a line. *)
Definition two_lines_board : list string :=
  ["X"; "X"; "X"; "O"; "O"; "O"; " "; " "; " "].

(** How many cells hold [m], and how many are not empty. *)
Definition count_mark (m : string) (b : list string) : nat :=
  length (filter (fun c => c = m) b).
Definition occupied (b : list string) : nat :=
  length (filter (fun c => c <> EMPTY) b).

Definition other_player (current_player : string) : string :=
  if String.eqb current_player HUMAN then AI else HUMAN.

(** [round_at n cp s]: the loop of [play_round] is about to start a pass
    in state [s] with [cp] to move, [n] passes after the round began. *)
Inductive round_at `{Runtime} : nat -> string -> state -> Prop :=
| round_start s :
    board s = init_board -> round_at 0 HUMAN s
| round_next n cp cp' s s' :
    round_at n cp s ->
    play_round_body cp s = Some (Ok (inl cp'), s') ->
    round_at (S n) cp' s'.

(** A runtime whose [json.load] reads the document [doc] from every
    text and whose [json.dump] writes every document as [text]. *)
Definition fixed_runtime (doc : result json) (text : string) : Runtime :=
  {| int_max_str_digits := 4300;
     json_load := fun _ => doc;
     json_dump := fun _ => text |}.

(** A knowledge base that was taught one move, with its file not yet
    written. *)
Definition taught_once : state :=
  State init_board {[ "    X    " := 0 ]} [] [] Missing true.

(** What [_load] makes of the text of the file: the mapping, or the
    exception raised on the way to it. *)
Definition parse_moves `{Runtime} (contents : string)
  : result (gmap string Z) :=
  data ← json_load contents;
  items ← dict_items data;
  KnowledgeBase.comprehension items ∅.

(** The exceptions the handler of [_load] lets through. *)
Definition escapes_load (e : exn) : Prop :=
  caught_by [JSONDecodeError; OSError; ValueError] e = false.

(** The state after [print(text)], and after [input(prompt)] has read a
    line and left [rest]. *)
Definition after_print (text : string) (s : state) : state :=
  set_stdout (stdout s ++ [text]) s.
Definition after_input (prompt : string) (rest : list string) (s : state)
  : state :=
  set_stdin rest (after_print prompt s).

(** The state after [kb.learn_move(key, position)] has written the
    file. *)
Definition learned `{Runtime} (key : string) (position : Z) (s : state)
  : state :=
  set_disk
    (Text (json_dump
             (KnowledgeBase.document (<[key := position]> (moves s)))))
    (set_moves (<[key := position]> (moves s)) s).

(** Reads of a field through the setters. *)
Ltac state_simpl :=
  unfold set_board, set_moves, set_stdin, set_stdout, set_disk in *;
  cbn [board moves stdin stdout disk writable] in *.

(** A session in which the machine knows the reply to a first move in
    the centre, and one in which it has to be taught it. *)
Definition centre_taken : list string :=
  [" "; " "; " "; " "; "X"; " "; " "; " "; " "].
Definition knows_reply : state :=
  State centre_taken {[ "    X    " := 0 ]} [] [] Missing true.

(** A fresh round in which the human is about to type 5, and the state
    the first pass of the round leaves it in. *)
Definition opening : state :=
  State init_board ∅ ["5"] [] Missing true.
Definition after_opening : state :=
  Eval vm_compute in
    match @play_round_body (fixed_runtime (Raise JSONDecodeError) "")
            HUMAN opening with
    | Some (_, s) => s
    | None => opening
    end.

(** What a line typed at a prompt for a cell does on the board [b]: it
    is turned down when it is not numeric or names a cell that cannot be
    played, and taken as the position [p] when it is the number of the
    playable cell [p], counted from 1. *)
Definition turned_down `{Runtime} (b : list string) (line : string) : Prop :=
  isdigit (strip line) = false
  \/ exists n, isdigit (strip line) = true
             /\ int_of_str int_max_str_digits (strip line) = Ok n
             /\ TicTacToe.is_valid_move b (n - 1) = Ok false.
Definition taken `{Runtime} (b : list string) (line : string) (p : Z) : Prop :=
  isdigit (strip line) = true
  /\ int_of_str int_max_str_digits (strip line) = Ok (p + 1)
  /\ TicTacToe.is_valid_move b p = Ok true.

(** What the console shows after the lines [pre] were turned down. *)
Definition asked_again (prompt message : string) (pre : list string)
  : list string :=
  flat_map (fun _ => [prompt; message]) pre.

(** The message that ends a round won by [winner]. *)
Definition outcome_message (winner : string) : string :=
  if bool_decide (winner = "Empate") then Msg.draw
  else if bool_decide (winner = TicTacToe.HUMAN) then Msg.human_wins
  else Msg.ai_wins.

(** The character shown for the cell [cell] at index [i]: its mark, or
    the digit of its number when it is empty. *)
Definition shown (cell : string) (i : nat) : string :=
  if String.eqb cell TicTacToe.EMPTY then pretty (Z.of_nat i + 1) else cell.

(** The text [display] writes for a board of nine cells. *)
Definition rendering (b : list string) : string :=
  let cell i := shown (default "" (b !! i)) i in
  nl +:+ Py.join (nl +:+ "---------" +:+ nl)
           [ Py.join " | " [cell 0%nat; cell 1%nat; cell 2%nat];
             Py.join " | " [cell 3%nat; cell 4%nat; cell 5%nat];
             Py.join " | " [cell 6%nat; cell 7%nat; cell 8%nat] ]
     +:+ nl.

(** A session in which the human wins with the first row, teaching the
    machine the cells 4 and 5 on the way, and then declines another
    round; and the state in which the round leaves it. *)
Definition quick_win : state :=
  State [] ∅ ["1"; "4"; "2"; "5"; "3"; " N "] [] Missing true.
Definition after_quick_win : state :=
  Eval vm_compute in
    match @play_round (fixed_runtime (Raise JSONDecodeError) "") quick_win with
    | Some (_, s) => s
    | None => quick_win
    end.

(** A session whose knowledge file holds the text of a JSON array. *)
Definition array_on_disk : state :=
  State init_board ∅ [] [] (Text "[]") true.

(** A session whose knowledge file cannot be written. *)
Definition read_only_store : state :=
  State init_board ∅ [] [] Missing false.

(** The superscript two, U+00B2: a digit for [str.isdigit], not a
    decimal for [int]. *)
Definition superscript_two : string := String "178" "".

(** A fresh session in which the human types a superscript two. *)
Definition typing_superscript : state :=
  State init_board ∅ [superscript_two] [] Missing true.

(** ** The runtime: indexing *)

Lemma getitem_lookup {A} (l : list A) (i : Z) (x : A) :
  0 <= i -> l !! Z.to_nat i = Some x -> getitem l i = Ok x.
Proof.
  intros Hi Hx. unfold getitem.
  destruct (Z.ltb_spec i 0) as [?|_]; [lia|].
  destruct (Z.ltb_spec i 0) as [?|_]; [lia|].
  by rewrite Hx.
Qed.

Lemma getitem_in_range {A} (l : list A) (i : Z) :
  0 <= i < Z.of_nat (length l) ->
  exists x, l !! Z.to_nat i = Some x /\ getitem l i = Ok x.
Proof.
  intros Hi. destruct (lookup_lt_is_Some_2 l (Z.to_nat i)) as [x Hx]; [lia|].
  exists x. split; [done|]. apply getitem_lookup; [lia|done].
Qed.

Lemma setitem_in_range {A} (l : list A) (i : Z) (x : A) :
  0 <= i < Z.of_nat (length l) ->
  setitem l i x = Ok (<[Z.to_nat i := x]> l).
Proof.
  intros Hi. unfold setitem.
  destruct (Z.ltb_spec i 0) as [?|_]; [lia|].
  destruct (Z.ltb_spec i 0) as [?|_]; [lia|].
  destruct (lookup_lt_is_Some_2 l (Z.to_nat i)) as [y Hy]; [lia|].
  by rewrite Hy.
Qed.

(** ** The board rules *)

Lemma String_eqb_eq (x y : string) : String.eqb x y = bool_decide (x = y).
Proof.
  destruct (String.eqb_spec x y) as [->|Hne].
  - by rewrite bool_decide_eq_true_2.
  - by rewrite bool_decide_eq_false_2.
Qed.

Lemma is_valid_move_out_of_range (b : list string) (position : Z) :
  ~ (0 <= position <= 8) -> is_valid_move b position = Ok false.
Proof.
  intros Hout. unfold is_valid_move.
  destruct (Z.leb_spec 0 position), (Z.ltb_spec position 9); simpl; try done.
  lia.
Qed.

Lemma is_valid_move_in_range (b : list string) (position : Z) :
  length b = 9%nat -> 0 <= position <= 8 ->
  exists cell, b !! Z.to_nat position = Some cell
            /\ is_valid_move b position = Ok (bool_decide (cell = EMPTY)).
Proof.
  intros Hlen Hin. unfold is_valid_move.
  destruct (Z.leb_spec 0 position), (Z.ltb_spec position 9); try lia. simpl.
  destruct (getitem_in_range b position) as (cell & Hcell & ->); [lia|].
  exists cell. split; [done|]. simpl. by rewrite String_eqb_eq.
Qed.

Lemma is_valid_move_true (b : list string) (position : Z) :
  is_valid_move b position = Ok true ->
  0 <= position <= 8 /\ b !! Z.to_nat position = Some EMPTY.
Proof.
  unfold is_valid_move.
  destruct (Z.leb_spec 0 position), (Z.ltb_spec position 9); simpl; try done.
  unfold getitem. destruct (Z.ltb_spec position 0); [lia|].
  destruct (Z.ltb_spec position 0); [lia|].
  destruct (b !! Z.to_nat position) as [cell|] eqn:Hcell; simpl; [|done].
  intros [= Heq]. apply String.eqb_eq in Heq. subst. split; [lia|done].
Qed.


(** C8. On a board of nine cells [is_valid_move] answers a Boolean for
    every integer position, never raising, and the answer is true exactly
    when the position is in 0..8 and its cell is empty; outside 0..8 the
    answer is false without the cell being read, whatever the board. *)
Theorem is_valid_move_spec (b : list string) (position : Z) :
  length b = 9%nat ->
  (exists r, is_valid_move b position = Ok r
          /\ (r = true <->
               0 <= position <= 8 /\ b !! Z.to_nat position = Some EMPTY))
  /\ (forall b' : list string,
        ~ (0 <= position <= 8) -> is_valid_move b' position = Ok false).
Proof.
  intros Hlen. split.
  - destruct (decide (0 <= position <= 8)) as [Hin|Hout].
    + destruct (is_valid_move_in_range b position Hlen Hin)
        as (cell & Hcell & Hv).
      exists (bool_decide (cell = EMPTY)). split; [done|].
      rewrite bool_decide_eq_true. split.
      * intros ->. done.
      * intros [_ Hc]. congruence.
    + exists false. split; [by apply is_valid_move_out_of_range|].
      split; [done|]. intros [? _]. done.
  - intros b'. apply is_valid_move_out_of_range.
Qed.

Lemma is_valid_move_spec_witness :
  length init_board = 9%nat /\
  ((exists r, is_valid_move init_board (-1) = Ok r
           /\ (r = true <->
                0 <= -1 <= 8 /\ init_board !! Z.to_nat (-1) = Some EMPTY))
   /\ (forall b' : list string,
         ~ (0 <= -1 <= 8) -> is_valid_move b' (-1) = Ok false)).
Proof.
  split; [reflexivity | apply (is_valid_move_spec init_board (-1)); reflexivity].
Defined.

(** *** The key of a board *)

Lemma join_single_char (c : ascii) (cells : list string) :
  Py.join "" (String c "" :: cells) = String c (Py.join "" cells).
Proof. unfold Py.join. by destruct cells. Qed.

Lemma valid_cell_single_char (cell : string) :
  cell = HUMAN \/ cell = AI \/ cell = EMPTY -> exists c, cell = String c "".
Proof. intros [-> | [-> | ->]]; eauto. Qed.

Lemma join_injective (b1 b2 : list string) :
  Forall (fun cell => exists c, cell = String c "") b1 ->
  Forall (fun cell => exists c, cell = String c "") b2 ->
  Py.join "" b1 = Py.join "" b2 -> b1 = b2.
Proof.
  intros H1. revert b2.
  induction H1 as [|x1 b1 [c1 ->] _ IH]; intros b2 H2 Hkey.
  - destruct H2 as [|x2 b2 [c2 ->] _]; [done|].
    by rewrite join_single_char in Hkey.
  - destruct H2 as [|x2 b2 [c2 ->] H2].
    + by rewrite join_single_char in Hkey.
    + rewrite !join_single_char in Hkey. injection Hkey as Hc Hrest. subst c2.
      f_equal. by apply IH.
Qed.

(** C4. [board_key] is a function of the cells, and on boards of the game
    it is injective: two boards have the same key exactly when they are
    the same board. *)
Theorem board_key_injective (b1 b2 : list string) :
  valid_board b1 -> valid_board b2 ->
  (board_key b1 = board_key b2 <-> b1 = b2).
Proof.
  intros [_ H1] [_ H2]. split; [|by intros ->].
  apply join_injective.
  - eapply Forall_impl; [exact H1|]. apply valid_cell_single_char.
  - eapply Forall_impl; [exact H2|]. apply valid_cell_single_char.
Qed.

Lemma valid_board_init : valid_board init_board.
Proof. split; [reflexivity|]. repeat constructor; by right; right. Qed.

Lemma valid_board_two_lines : valid_board two_lines_board.
Proof.
  split; [reflexivity|].
  repeat constructor; first [by left | by right; left | by right; right].
Qed.

Lemma board_key_injective_witness :
  valid_board init_board /\ valid_board two_lines_board /\
  (board_key init_board = board_key two_lines_board <->
   init_board = two_lines_board).
Proof.
  split; [exact valid_board_init|]. split; [exact valid_board_two_lines|].
  exact (board_key_injective init_board two_lines_board
           valid_board_init valid_board_two_lines).
Defined.

(** *** The winner of a board *)

Lemma mark_not_empty (m : string) : is_mark m -> m <> EMPTY.
Proof. by intros [-> | ->]. Qed.

Lemma mark_not_draw (m : string) : is_mark m -> m <> "Empate".
Proof. by intros [-> | ->]. Qed.

Lemma WIN_PATTERNS_in_range : Forall (pattern_in_range 9) WIN_PATTERNS.
Proof. repeat constructor; lia. Qed.

Lemma valid_board_cell (b : list string) (n : nat) (cell : string) :
  valid_board b -> b !! n = Some cell -> cell <> EMPTY -> is_mark cell.
Proof.
  intros [_ Hcells] Hcell Hne.
  rewrite Forall_lookup in Hcells.
  destruct (Hcells n cell Hcell) as [?|[?|?]]; [by left | by right | done].
Qed.

(** One pattern of the scan: either a mark holds the line and is the
    answer, or the line is open and the scan goes on. *)
Lemma scan_patterns_step (b : list string) p (rest : list (Z * Z * Z)) :
  valid_board b -> pattern_in_range 9 p ->
  (exists m, is_mark m /\ line_won b m p
          /\ scan_patterns b (p :: rest) = Ok (Some m))
  \/ (line_open b p /\ scan_patterns b (p :: rest) = scan_patterns b rest).
Proof.
  intros Hb Hp. destruct p as [[i j] k]. destruct Hp as (Hi & Hj & Hk).
  pose proof Hb as [Hlen _].
  destruct (getitem_in_range b i) as (xi & Hxi & Gi); [lia|].
  destruct (getitem_in_range b j) as (xj & Hxj & Gj); [lia|].
  destruct (getitem_in_range b k) as (xk & Hxk & Gk); [lia|].
  cbn [scan_patterns]. rewrite Gi, Gj. cbn [mbind result_bind].
  rewrite !String_eqb_eq.
  destruct (decide (xi = xj)) as [Hij|Hij].
  - rewrite (bool_decide_eq_true_2 _ Hij), Gk. cbn [mbind result_bind].
    rewrite !String_eqb_eq.
    destruct (decide (xj = xk)) as [Hjk|Hjk];
      [destruct (decide (xk = EMPTY)) as [Hke|Hke]|].
    + rewrite (bool_decide_eq_true_2 _ Hjk), (bool_decide_eq_true_2 _ Hke).
      right. split; [|done]. intros m Hm (Hmi & _ & Hmk).
      apply (mark_not_empty m Hm). congruence.
    + rewrite (bool_decide_eq_true_2 _ Hjk), (bool_decide_eq_false_2 _ Hke).
      cbn [andb negb mbind result_bind]. left. exists xi. subst xi xj.
      split; [by eapply valid_board_cell|]. done.
    + rewrite (bool_decide_eq_false_2 _ Hjk). right. split; [|done].
      intros m Hm (_ & Hmj & Hmk). congruence.
  - rewrite (bool_decide_eq_false_2 _ Hij). right. split; [|done].
    intros m Hm (Hmi & Hmj & _). congruence.
Qed.

Lemma scan_patterns_cases (b : list string) (ps : list (Z * Z * Z)) :
  valid_board b -> Forall (pattern_in_range 9) ps ->
  (exists m, is_mark m /\ first_held b m ps
          /\ scan_patterns b ps = Ok (Some m))
  \/ (Forall (line_open b) ps /\ scan_patterns b ps = Ok None).
Proof.
  intros Hb Hps. induction Hps as [|p ps Hp _ IH].
  - right. by split.
  - destruct (scan_patterns_step b p ps Hb Hp)
      as [(m & Hm & Hwon & Hscan) | (Hopen & Hscan)].
    + left. exists m. split; [done|]. split; [|done].
      exists 0%nat, p. split; [done|]. split; [done|]. intros; lia.
    + rewrite Hscan.
      destruct IH as [(m & Hm & (n & q & Hq & Hwon & Hbefore) & Hrest)
                     | (Hall & Hrest)].
      * left. exists m. split; [done|]. split; [|done].
        exists (S n), q. split; [done|]. split; [done|].
        intros [|n'] q' Hlt Hq'.
        -- by injection Hq' as <-.
        -- apply (Hbefore n'); [lia|done].
      * right. split; [by constructor|done].
Qed.

Lemma first_held_unique (b : list string) (m m' : string) ps :
  is_mark m -> is_mark m' ->
  first_held b m ps -> first_held b m' ps -> m = m'.
Proof.
  intros Hm Hm' (n & p & Hp & Hwon & Hbefore) (n' & p' & Hp' & Hwon' & Hbefore').
  destruct (lt_eq_lt_dec n n') as [[Hlt|Heq]|Hlt].
  - by destruct (Hbefore' n p Hlt Hp m Hm).
  - subst n'. assert (p' = p) as -> by congruence.
    destruct p as [[i j] k]. destruct Hwon as [Hi _], Hwon' as [Hi' _].
    congruence.
  - by destruct (Hbefore n' p' Hlt Hp' m' Hm').
Qed.

Lemma first_held_not_open (b : list string) (m : string) ps :
  is_mark m -> first_held b m ps -> ~ Forall (line_open b) ps.
Proof.
  intros Hm (n & p & Hp & Hwon & _) Hall.
  rewrite Forall_lookup in Hall. by apply (Hall n p Hp m Hm).
Qed.

Lemma existsb_empty_cell (b : list string) :
  existsb (String.eqb EMPTY) b = true <-> EMPTY ∈ b.
Proof.
  rewrite existsb_exists. split.
  - intros (c & Hin & Heq). apply String.eqb_eq in Heq. subst.
    by apply list_elem_of_In.
  - intros Hin. exists EMPTY. split; [by apply list_elem_of_In|].
    apply String.eqb_refl.
Qed.

(** What [check_winner] answers, by the two outcomes of the scan. *)
Lemma check_winner_cases (b : list string) :
  valid_board b ->
  (exists m, is_mark m /\ first_held b m WIN_PATTERNS
          /\ check_winner b = Ok (Some m))
  \/ (Forall (line_open b) WIN_PATTERNS /\ (EMPTY ∉ b)
      /\ check_winner b = Ok (Some "Empate"))
  \/ (Forall (line_open b) WIN_PATTERNS /\ (EMPTY ∈ b)
      /\ check_winner b = Ok None).
Proof.
  intros Hb. unfold check_winner.
  destruct (scan_patterns_cases b WIN_PATTERNS Hb WIN_PATTERNS_in_range)
    as [(m & Hm & Hfirst & ->) | (Hopen & ->)]; cbn [mbind result_bind].
  - left. by exists m.
  - right. destruct (existsb (String.eqb EMPTY) b) eqn:Hex; cbn [negb].
    + right. split; [done|]. split; [|done]. by apply existsb_empty_cell.
    + left. split; [done|]. split; [|done].
      intros Hin. apply existsb_empty_cell in Hin. congruence.
Qed.

(** C1, as amended. On every board of the game [check_winner] answers the
    mark [m] exactly when [m] holds the first held line in the scan order
    of [WIN_PATTERNS]; where no other mark holds a line this is exactly
    when [m] holds some line. It answers the draw exactly when no line is
    held and no cell is empty, and nothing exactly when no line is held
    and some cell is empty. *)
Theorem check_winner_first_line (b : list string) :
  valid_board b ->
  (forall m, is_mark m ->
     (check_winner b = Ok (Some m) <-> first_held b m WIN_PATTERNS))
  /\ (forall m, is_mark m ->
        (forall m' p, is_mark m' -> p ∈ WIN_PATTERNS -> line_won b m' p ->
                      m' = m) ->
        (check_winner b = Ok (Some m) <->
         exists p, p ∈ WIN_PATTERNS /\ line_won b m p))
  /\ (check_winner b = Ok (Some "Empate") <->
      Forall (line_open b) WIN_PATTERNS /\ (EMPTY ∉ b))
  /\ (check_winner b = Ok None <->
      Forall (line_open b) WIN_PATTERNS /\ (EMPTY ∈ b)).
Proof.
  intros Hb.
  assert (Hfirst : forall m, is_mark m ->
            (check_winner b = Ok (Some m) <-> first_held b m WIN_PATTERNS)).
  { intros m Hm.
    destruct (check_winner_cases b Hb)
      as [(m' & Hm' & Hheld & Hw) | [(Hopen & _ & Hw) | (Hopen & _ & Hw)]];
      rewrite Hw; split.
    - by intros [= ->].
    - intros Hheld'. by rewrite (first_held_unique b m m' _ Hm Hm' Hheld' Hheld).
    - intros [= <-]. by destruct (mark_not_draw _ Hm).
    - intros Hheld. by destruct (first_held_not_open b m _ Hm Hheld).
    - done.
    - intros Hheld. by destruct (first_held_not_open b m _ Hm Hheld). }
  split; [exact Hfirst|]. split; [|split].
  - intros m Hm Honly. rewrite (Hfirst m Hm). split.
    + intros (n & p & Hp & Hwon & _). exists p. split; [|done].
      apply list_elem_of_lookup. by exists n.
    + intros (p & Hp & Hwon).
      destruct (check_winner_cases b Hb)
        as [(m' & Hm' & Hheld & _) | [(Hopen & _) | (Hopen & _)]].
      * destruct Hheld as (n & q & Hq & Hwon' & Hbefore).
        assert (m' = m) as ->; [|by exists n, q].
        apply (Honly m' q Hm'); [|done].
        apply list_elem_of_lookup. by exists n.
      * rewrite Forall_forall in Hopen. by destruct (Hopen p Hp m Hm).
      * rewrite Forall_forall in Hopen. by destruct (Hopen p Hp m Hm).
  - destruct (check_winner_cases b Hb)
      as [(m' & Hm' & Hheld & Hw) | [(Hopen & Hfull & Hw) | (Hopen & Hcell & Hw)]];
      rewrite Hw; split; try done.
    + intros [= ->]. by destruct (mark_not_draw _ Hm').
    + intros [Hopen _]. by destruct (first_held_not_open b m' _ Hm' Hheld).
    + intros [_ Hfull]. done.
  - destruct (check_winner_cases b Hb)
      as [(m' & Hm' & Hheld & Hw) | [(Hopen & Hfull & Hw) | (Hopen & Hcell & Hw)]];
      rewrite Hw; split; try done.
    + intros [Hopen _]. by destruct (first_held_not_open b m' _ Hm' Hheld).
    + intros [_ Hcell]. done.
Qed.

Lemma check_winner_first_line_witness :
  valid_board two_lines_board /\
  (check_winner two_lines_board = Ok (Some HUMAN) <->
   first_held two_lines_board HUMAN WIN_PATTERNS).
Proof.
  split; [exact valid_board_two_lines|].
  apply (check_winner_first_line two_lines_board valid_board_two_lines).
  by left.
Defined.

(** C1, as first stated, fails on a board where both marks hold a line:
    O holds the middle row of [two_lines_board], yet the answer is X,
    whose row comes first in the scan. *)
Lemma check_winner_two_lines :
  valid_board two_lines_board /\ ~ winner_iff_line two_lines_board.
Proof.
  split; [exact valid_board_two_lines|]. intros Hclaim.
  destruct (Hclaim AI) as [_ Hback]; [by right|].
  assert (Hw : check_winner two_lines_board = Ok (Some AI)).
  { apply Hback. exists (3, 4, 5). split; [|done].
    apply list_elem_of_lookup. by exists 1%nat. }
  vm_compute in Hw. discriminate Hw.
Qed.

(** ** The knowledge base *)

Import KnowledgeBase.

(** C3. After [learn_move key m], whether or not the write to the file
    succeeded, [get_move key] on the store answers [m]. *)
Theorem learn_move_get_move `{Runtime} (s : state) (key : string) (m : Z) :
  exists r s',
    learn_move key m s = Some (r, s')
    /\ get_move key s' = Some (Ok (Some m), s').
Proof.
  unfold learn_move, save, get_move, gets, modify, mbind, M_bind.
  state_simpl. destruct (writable s) eqn:Hw.
  - eexists _, _. split; [reflexivity|]. state_simpl.
    by rewrite lookup_insert_eq.
  - eexists _, _. split; [reflexivity|]. state_simpl.
    by rewrite lookup_insert_eq.
Qed.

(** C10. When the file cannot be written, [learn_move key m] raises the
    error of [save], and the state it leaves has the entry for [key] in
    the mapping already, with the file as it was. *)
Theorem learn_move_not_atomic `{Runtime} (s : state) (key : string) (m : Z) :
  writable s = false ->
  exists s',
    learn_move key m s = Some (Raise OSError, s')
    /\ moves s' = <[key := m]> (moves s)
    /\ moves s' !! key = Some m
    /\ disk s' = disk s.
Proof.
  intros Hw. unfold learn_move, save, modify, mbind, M_bind.
  state_simpl. rewrite Hw. eexists. split; [reflexivity|]. state_simpl.
  split; [done|]. split; [apply lookup_insert_eq | done].
Qed.

Lemma learn_move_not_atomic_witness :
  writable read_only_store = false /\
  exists s',
    @learn_move (fixed_runtime (Raise JSONDecodeError) "") "    X    " 0
      read_only_store = Some (Raise OSError, s')
    /\ moves s' = <["    X    " := 0]> (moves read_only_store)
    /\ moves s' !! "    X    " = Some 0
    /\ disk s' = disk read_only_store.
Proof.
  split; [reflexivity|].
  apply (@learn_move_not_atomic (fixed_runtime (Raise JSONDecodeError) "")
           read_only_store "    X    " 0).
  reflexivity.
Defined.

(** *** Writing the mapping and reading it back *)



(** [_load] on a file with a text. *)
Lemma _load_text `{Runtime} (s : state) (contents : string) :
  disk s = Text contents ->
  _load s =
  match parse_moves contents with
  | Ok loaded => Some (Ok tt, set_moves loaded s)
  | Raise e =>
      if caught_by [JSONDecodeError; OSError; ValueError] e
      then Some (Ok tt, set_moves ∅ s)
      else Some (Raise e, s)
  end.
Proof.
  intros Hdisk.
  unfold _load, path_exists, open_and_load, try_except, gets, modify, lift,
    parse_moves, mbind, M_bind.
  rewrite Hdisk. cbn beta iota. rewrite Hdisk. unfold result_bind.
  destruct (json_load contents) as [data|e]; [|done].
  destruct (dict_items data) as [items|e]; [|done].
  by destruct (comprehension items ∅) as [loaded|e].
Qed.



(** *** Reading the file *)

Lemma _load_missing `{Runtime} (s : state) :
  disk s = Missing -> _load s = Some (Ok tt, s).
Proof.
  intros Hdisk. unfold _load, path_exists, gets, mbind, M_bind.
  by rewrite Hdisk.
Qed.

Lemma _load_unreadable `{Runtime} (s : state) :
  disk s = Unreadable \/ disk s = Undecodable ->
  _load s = Some (Ok tt, set_moves ∅ s).
Proof.
  unfold _load, path_exists, open_and_load, try_except, gets, modify,
    mbind, M_bind.
  intros [Hdisk|Hdisk]; rewrite Hdisk; cbn beta iota; by rewrite Hdisk.
Qed.

(** Every run of [_load] ends; it either returns, or raises an exception
    that its handler does not list and leaves the state as it was. *)
Lemma _load_outcome `{Runtime} (s : state) :
  exists r s',
    _load s = Some (r, s')
    /\ (r = Ok tt \/ exists e, r = Raise e /\ escapes_load e /\ s' = s).
Proof.
  destruct (disk s) as [| | |contents] eqn:Hdisk.
  - rewrite (_load_missing s Hdisk). eexists _, _. split; [done|by left].
  - rewrite (_load_unreadable s); [|by left].
    eexists _, _. split; [done|by left].
  - rewrite (_load_unreadable s); [|by right].
    eexists _, _. split; [done|by left].
  - rewrite (_load_text s contents Hdisk).
    destruct (parse_moves contents) as [loaded|e].
    + eexists _, _. split; [done|by left].
    + destruct (caught_by _ e) eqn:Hcaught.
      * eexists _, _. split; [done|by left].
      * eexists _, _. split; [done|]. right. by exists e.
Qed.

(** [_load] leaves the board alone. *)
Lemma _load_keeps_board `{Runtime} (s s' : state) (r : result unit) :
  _load s = Some (r, s') -> board s' = board s.
Proof.
  destruct (disk s) as [| | |contents] eqn:Hdisk.
  - rewrite (_load_missing s Hdisk). by intros [= _ <-].
  - rewrite (_load_unreadable s); [|by left]. by intros [= _ <-].
  - rewrite (_load_unreadable s); [|by right]. by intros [= _ <-].
  - rewrite (_load_text s contents Hdisk).
    destruct (parse_moves contents) as [loaded|e]; [by intros [= _ <-]|].
    destruct (caught_by _ e); by intros [= _ <-].
Qed.

(** What the handler covers: a text that is not JSON, and an object with
    a value [int] rejects by [ValueError], empty the mapping. *)
Lemma _load_recovers `{Runtime} (s : state) (contents : string) (e : exn) :
  disk s = Text contents ->
  parse_moves contents = Raise e ->
  isinstance e ValueError = true \/ e = OSError ->
  _load s = Some (Ok tt, set_moves ∅ s).
Proof.
  intros Hdisk Hparse He. rewrite (_load_text s contents Hdisk), Hparse.
  destruct He as [He| ->]; [|done]. by destruct e.
Qed.

(** C2, at the input where it fails. When the file holds a JSON array,
    [data.items()] raises [AttributeError]; the handler of [_load] does
    not list it, so it leaves [_load], and the constructor of the
    knowledge base that called it. *)
Theorem _load_array_raises `{Runtime} (s : state) (contents : string)
    (elems : list json) :
  disk s = Text contents ->
  json_load contents = Ok (JArr elems) ->
  _load s = Some (Raise AttributeError, s)
  /\ init s = Some (Raise AttributeError, set_moves ∅ s).
Proof.
  intros Hdisk Hjson.
  assert (Hparse : parse_moves contents = Raise AttributeError).
  { unfold parse_moves. by rewrite Hjson. }
  split.
  - by rewrite (_load_text s contents Hdisk), Hparse.
  - unfold init, modify, mbind, M_bind.
    by rewrite (_load_text (set_moves ∅ s) contents Hdisk), Hparse.
Qed.

Lemma _load_array_raises_witness :
  let rt := fixed_runtime (Ok (JArr [])) "" in
  disk array_on_disk = Text "[]" /\
  @json_load rt "[]" = Ok (JArr []) /\
  @_load rt array_on_disk = Some (Raise AttributeError, array_on_disk) /\
  @init rt array_on_disk
    = Some (Raise AttributeError, set_moves ∅ array_on_disk).
Proof.
  intros rt. split; [reflexivity|]. split; [reflexivity|].
  exact (@_load_array_raises rt array_on_disk "[]" [] eq_refl eq_refl).
Defined.

(** The same for an object one of whose values is [null]: [int(None)]
    raises [TypeError]. *)
Lemma _load_null_raises `{Runtime} (s : state) (contents key : string) :
  disk s = Text contents ->
  json_load contents = Ok (JObj [(key, JNull)]) ->
  _load s = Some (Raise TypeError, s).
Proof.
  intros Hdisk Hjson. rewrite (_load_text s contents Hdisk).
  unfold parse_moves. by rewrite Hjson.
Qed.

(** ** Loops *)

Lemma while_true_step {L A} (fuel : nat) (body : L -> M (L + A)) (l : L)
    (s : state) :
  while_true (S fuel) body l s =
  match body l s with
  | Some (Ok (inl l'), s') => while_true fuel body l' s'
  | Some (Ok (inr a), s') => Some (Ok a, s')
  | Some (Raise e, s') => Some (Raise e, s')
  | None => None
  end.
Proof.
  cbn [while_true]. unfold mbind, M_bind.
  by destruct (body l s) as [[[[l'|a]|e] s']|].
Qed.

(** A loop that returns has returned from a pass that began where the
    invariant held. *)
Lemma while_true_returns {L A} (body : L -> M (L + A))
    (inv : L -> state -> Prop) (post : A -> state -> Prop) :
  (forall l s l' s',
      inv l s -> body l s = Some (Ok (inl l'), s') -> inv l' s') ->
  (forall l s a s',
      inv l s -> body l s = Some (Ok (inr a), s') -> post a s') ->
  forall fuel l s a s',
    inv l s -> while_true fuel body l s = Some (Ok a, s') -> post a s'.
Proof.
  intros Hnext Hlast. induction fuel as [|fuel IH]; intros l s a s' Hinv Hrun.
  - done.
  - rewrite while_true_step in Hrun.
    destruct (body l s) as [[[[l1|a1]|e] s1]|] eqn:Hbody; try done.
    + eapply IH; [|exact Hrun]. by eapply Hnext.
    + injection Hrun as <- <-. by eapply Hlast.
Qed.

(** A loop over the input whose passes all end, and read a line when
    they go round again, ends. *)
Lemma input_loop_ends {A} (body : unit -> M (unit + A)) :
  (forall s, body tt s <> None) ->
  (forall s s', body tt s = Some (Ok (inl tt), s') ->
                (length (stdin s') < length (stdin s))%nat) ->
  forall s, input_loop body s <> None.
Proof.
  intros Hends Hreads.
  assert (Hfuel : forall fuel s, (length (stdin s) < fuel)%nat ->
                    while_true fuel body tt s <> None).
  { induction fuel as [|fuel IH]; intros s Hlt; [lia|].
    rewrite while_true_step.
    destruct (body tt s) as [[[[[]|a]|e] s1]|] eqn:Hbody; try done.
    - apply IH. specialize (Hreads s s1 Hbody). lia.
    - by destruct (Hends s). }
  intros s. apply Hfuel. lia.
Qed.

(** A pass that goes round again after reading the only line it needed
    leaves the loop to start afresh on the rest of the input. *)
Lemma input_loop_again {A} (body : unit -> M (unit + A)) (s s' : state) :
  body tt s = Some (Ok (inl tt), s') ->
  S (length (stdin s')) = length (stdin s) ->
  input_loop body s = input_loop body s'.
Proof.
  intros Hbody Hlen. unfold input_loop.
  by rewrite <- Hlen, while_true_step, Hbody.
Qed.

(** ** The move of the human *)

Section HumanMove.
Context `{Runtime}.

Lemma request_human_move_body_eof (s : state) :
  stdin s = [] ->
  request_human_move_body tt s
  = Some (Raise EOFError, after_print Msg.move_prompt s).
Proof.
  intros Hin.
  unfold request_human_move_body, input, after_print, mbind, M_bind.
  state_simpl. by rewrite Hin.
Qed.

(** One pass on a line: the four ways it can go. *)
Lemma request_human_move_body_line (s : state) (line : string)
    (rest : list string) :
  stdin s = line :: rest ->
  request_human_move_body tt s =
  let s1 := after_input Msg.move_prompt rest s in
  if isdigit (strip line) then
    match int_of_str int_max_str_digits (strip line) with
    | Ok n =>
        match is_valid_move (board s) (n - 1) with
        | Ok true => Some (Ok (inr (n - 1)), s1)
        | Ok false => Some (Ok (inl tt), after_print Msg.invalid_move s1)
        | Raise e => Some (Raise e, s1)
        end
    | Raise e => Some (Raise e, s1)
    end
  else Some (Ok (inl tt), after_print Msg.invalid_move s1).
Proof.
  intros Hin.
  unfold request_human_move_body, input, print, modify, lift,
    Game.is_valid_move, after_input, after_print, mbind, mret, M_bind, M_ret.
  state_simpl. rewrite Hin. cbn beta iota.
  destruct (isdigit (strip line)); [|done].
  destruct (int_of_str int_max_str_digits (strip line)) as [n|e]; [|done].
  state_simpl.
  by destruct (is_valid_move (board s) (n - 1)) as [[]|e].
Qed.

Lemma request_human_move_body_ends (s : state) :
  request_human_move_body tt s <> None.
Proof.
  destruct (stdin s) as [|line rest] eqn:Hin.
  - by rewrite request_human_move_body_eof.
  - rewrite (request_human_move_body_line s line rest Hin). cbn zeta.
    destruct (isdigit (strip line)); [|done].
    destruct (int_of_str _ _) as [n|e]; [|done].
    by destruct (is_valid_move _ _) as [[]|e].
Qed.

(** A pass that goes round again has read one line, written the prompt
    and the message, and touched nothing else. *)
Lemma request_human_move_body_again (s s' : state) :
  request_human_move_body tt s = Some (Ok (inl tt), s') ->
  exists line rest,
    stdin s = line :: rest
    /\ s' = after_print Msg.invalid_move
              (after_input Msg.move_prompt rest s).
Proof.
  destruct (stdin s) as [|line rest] eqn:Hin.
  - by rewrite request_human_move_body_eof.
  - rewrite (request_human_move_body_line s line rest Hin). cbn zeta.
    intros Hbody. exists line, rest. split; [done|].
    destruct (isdigit (strip line)); [|by injection Hbody as <-].
    destruct (int_of_str _ _) as [n|e]; [|done].
    destruct (is_valid_move _ _) as [[]|e]; try done.
    by injection Hbody as <-.
Qed.

(** A pass that returns a position returns a valid one, having read one
    line and touched nothing but the console. *)
Lemma request_human_move_body_returns (s s' : state) (position : Z) :
  request_human_move_body tt s = Some (Ok (inr position), s') ->
  is_valid_move (board s) position = Ok true
  /\ exists line rest,
       stdin s = line :: rest /\ s' = after_input Msg.move_prompt rest s.
Proof.
  destruct (stdin s) as [|line rest] eqn:Hin.
  - by rewrite request_human_move_body_eof.
  - rewrite (request_human_move_body_line s line rest Hin). cbn zeta.
    destruct (isdigit (strip line)); [|done].
    destruct (int_of_str _ _) as [n|e]; [|done].
    destruct (is_valid_move _ _) as [[]|e] eqn:Hvalid; try done.
    intros [= <- <-]. split; [done|]. by exists line, rest.
Qed.

Lemma request_human_move_ends (s : state) : request_human_move s <> None.
Proof.
  apply input_loop_ends.
  - apply request_human_move_body_ends.
  - intros s0 s1 Hbody.
    destruct (request_human_move_body_again s0 s1 Hbody)
      as (line & rest & Hin & ->).
    rewrite Hin. cbn. lia.
Qed.

(** What [request_human_move] returns is valid on the board, which it
    leaves as it was, with the knowledge base and its file. *)
Lemma request_human_move_returns (s s' : state) (position : Z) :
  request_human_move s = Some (Ok position, s') ->
  is_valid_move (board s) position = Ok true
  /\ board s' = board s /\ moves s' = moves s
  /\ disk s' = disk s /\ writable s' = writable s.
Proof.
  unfold request_human_move, input_loop.
  set (same := fun s0 : state =>
         board s0 = board s /\ moves s0 = moves s
         /\ disk s0 = disk s /\ writable s0 = writable s).
  apply (while_true_returns request_human_move_body
           (fun _ s0 => same s0)
           (fun p s0 => is_valid_move (board s) p = Ok true /\ same s0)).
  - intros [] s0 [] s1 Hsame Hbody.
    destruct (request_human_move_body_again s0 s1 Hbody)
      as (line & rest & _ & ->).
    exact Hsame.
  - intros [] s0 p s1 (Hb & Hsame) Hbody.
    destruct (request_human_move_body_returns s0 s1 p Hbody)
      as (Hvalid & line & rest & _ & ->).
    rewrite Hb in Hvalid. split; [done|]. by split.
  - by unfold same.
Qed.

(** An input that is not numeric is turned down: the line is read, the
    message written, and the function is back at its prompt with the
    board as it was. *)
Lemma request_human_move_rejects_non_numeric (s : state) (line : string)
    (rest : list string) :
  stdin s = line :: rest ->
  isdigit (strip line) = false ->
  request_human_move s
  = request_human_move
      (after_print Msg.invalid_move (after_input Msg.move_prompt rest s)).
Proof.
  intros Hin Hnum. apply input_loop_again.
  - by rewrite (request_human_move_body_line s line rest Hin), Hnum.
  - by rewrite Hin.
Qed.

(** So is a number whose cell cannot be played. *)
Lemma request_human_move_rejects_invalid (s : state) (line : string)
    (rest : list string) (n : Z) :
  stdin s = line :: rest ->
  isdigit (strip line) = true ->
  int_of_str int_max_str_digits (strip line) = Ok n ->
  is_valid_move (board s) (n - 1) = Ok false ->
  request_human_move s
  = request_human_move
      (after_print Msg.invalid_move (after_input Msg.move_prompt rest s)).
Proof.
  intros Hin Hnum Hint Hvalid. apply input_loop_again.
  - by rewrite (request_human_move_body_line s line rest Hin),
      Hnum, Hint, Hvalid.
  - by rewrite Hin.
Qed.

End HumanMove.

(** C7, at the input where it fails. The superscript two passes
    [isdigit], so [int] is applied to it and raises [ValueError]: the
    function raises where it should have asked again. *)
Theorem request_human_move_superscript `{Runtime} (s : state)
    (rest : list string) :
  stdin s = superscript_two :: rest ->
  isdigit (strip superscript_two) = true
  /\ request_human_move s
     = Some (Raise ValueError, after_input Msg.move_prompt rest s).
Proof.
  intros Hin. split; [reflexivity|].
  unfold request_human_move, input_loop.
  rewrite while_true_step.
  by rewrite (request_human_move_body_line s _ rest Hin).
Qed.

Lemma request_human_move_superscript_witness :
  stdin typing_superscript = [superscript_two] /\
  isdigit (strip superscript_two) = true /\
  @request_human_move (fixed_runtime (Raise JSONDecodeError) "")
    typing_superscript
  = Some (Raise ValueError,
          after_input Msg.move_prompt [] typing_superscript).
Proof.
  split; [reflexivity|].
  exact (@request_human_move_superscript
           (fixed_runtime (Raise JSONDecodeError) "")
           typing_superscript [] eq_refl).
Defined.

(** ** The move of the machine *)

Section MachineMove.
Context `{Runtime}.

Lemma ask_for_learning_body_eof (s : state) :
  stdin s = [] ->
  ask_for_learning_body tt s
  = Some (Raise EOFError, after_print Msg.teach_prompt s).
Proof.
  intros Hin.
  unfold ask_for_learning_body, input, after_print, mbind, M_bind.
  state_simpl. by rewrite Hin.
Qed.

(** One pass of the teach flow on a line. *)
Lemma ask_for_learning_body_line (s : state) (line : string)
    (rest : list string) :
  stdin s = line :: rest ->
  ask_for_learning_body tt s =
  let s1 := after_input Msg.teach_prompt rest s in
  if isdigit (strip line) then
    match int_of_str int_max_str_digits (strip line) with
    | Ok n =>
        match is_valid_move (board s) (n - 1) with
        | Ok true =>
            if writable s
            then Some (Ok (inr (n - 1)),
                       learned (board_key (board s)) (n - 1) s1)
            else Some (Raise OSError,
                       set_moves (<[board_key (board s) := n - 1]> (moves s))
                         s1)
        | Ok false => Some (Ok (inl tt), after_print Msg.invalid_teach s1)
        | Raise e => Some (Raise e, s1)
        end
    | Raise e => Some (Raise e, s1)
    end
  else Some (Ok (inl tt), after_print Msg.invalid_teach s1).
Proof.
  intros Hin.
  unfold ask_for_learning_body, input, print, modify, lift, gets,
    Game.is_valid_move, Game.board_key, learn_move, save, learned,
    after_input, after_print, mbind, mret, M_bind, M_ret.
  state_simpl. rewrite Hin. cbn beta iota.
  destruct (isdigit (strip line)); [|done].
  destruct (int_of_str int_max_str_digits (strip line)) as [n|e]; [|done].
  state_simpl.
  destruct (is_valid_move (board s) (n - 1)) as [[]|e]; try done.
  state_simpl. by destruct (writable s).
Qed.

Lemma ask_for_learning_body_ends (s : state) :
  ask_for_learning_body tt s <> None.
Proof.
  destruct (stdin s) as [|line rest] eqn:Hin.
  - by rewrite ask_for_learning_body_eof.
  - rewrite (ask_for_learning_body_line s line rest Hin). cbn zeta.
    destruct (isdigit (strip line)); [|done].
    destruct (int_of_str _ _) as [n|e]; [|done].
    destruct (is_valid_move _ _) as [[]|e]; try done.
    by destruct (writable s).
Qed.

Lemma ask_for_learning_body_again (s s' : state) :
  ask_for_learning_body tt s = Some (Ok (inl tt), s') ->
  exists line rest,
    stdin s = line :: rest
    /\ s' = after_print Msg.invalid_teach
              (after_input Msg.teach_prompt rest s).
Proof.
  destruct (stdin s) as [|line rest] eqn:Hin.
  - by rewrite ask_for_learning_body_eof.
  - rewrite (ask_for_learning_body_line s line rest Hin). cbn zeta.
    intros Hbody. exists line, rest. split; [done|].
    destruct (isdigit (strip line)); [|by injection Hbody as <-].
    destruct (int_of_str _ _) as [n|e]; [|done].
    destruct (is_valid_move _ _) as [[]|e]; try done.
    + by destruct (writable s).
    + by injection Hbody as <-.
Qed.

(** A pass that returns a position has found it valid, has taught it
    for the key of the board and has written the file. *)
Lemma ask_for_learning_body_returns (s s' : state) (position : Z) :
  ask_for_learning_body tt s = Some (Ok (inr position), s') ->
  is_valid_move (board s) position = Ok true
  /\ writable s = true
  /\ exists line rest,
       stdin s = line :: rest
       /\ s' = learned (board_key (board s)) position
                 (after_input Msg.teach_prompt rest s).
Proof.
  destruct (stdin s) as [|line rest] eqn:Hin.
  - by rewrite ask_for_learning_body_eof.
  - rewrite (ask_for_learning_body_line s line rest Hin). cbn zeta.
    destruct (isdigit (strip line)); [|done].
    destruct (int_of_str _ _) as [n|e]; [|done].
    destruct (is_valid_move _ _) as [[]|e] eqn:Hvalid; try done.
    destruct (writable s); [|done].
    intros [= <- <-]. split; [done|]. split; [done|]. by exists line, rest.
Qed.

Lemma ask_for_learning_unfold (s : state) :
  ask_for_learning s
  = input_loop ask_for_learning_body
      (after_print Msg.teach_howto (after_print Msg.teach_intro s)).
Proof. done. Qed.

Lemma ask_for_learning_ends (s : state) : ask_for_learning s <> None.
Proof.
  rewrite ask_for_learning_unfold. apply input_loop_ends.
  - apply ask_for_learning_body_ends.
  - intros s0 s1 Hbody.
    destruct (ask_for_learning_body_again s0 s1 Hbody)
      as (line & rest & Hin & ->).
    rewrite Hin. cbn. lia.
Qed.

(** What the teach flow returns is valid on the board, and is by then
    the stored move for the key of the board, in memory and on file. *)
Lemma ask_for_learning_returns (s s' : state) (position : Z) :
  ask_for_learning s = Some (Ok position, s') ->
  is_valid_move (board s) position = Ok true
  /\ board s' = board s
  /\ moves s' = <[board_key (board s) := position]> (moves s)
  /\ disk s' = Text (json_dump (document (moves s')))
  /\ writable s' = writable s.
Proof.
  rewrite ask_for_learning_unfold. unfold input_loop.
  set (same := fun s0 : state =>
         board s0 = board s /\ moves s0 = moves s
         /\ writable s0 = writable s).
  apply (while_true_returns ask_for_learning_body
           (fun _ s0 => same s0)
           (fun p s0 =>
              is_valid_move (board s) p = Ok true
              /\ board s0 = board s
              /\ moves s0 = <[board_key (board s) := p]> (moves s)
              /\ disk s0 = Text (json_dump (document (moves s0)))
              /\ writable s0 = writable s)).
  - intros [] s0 [] s1 Hsame Hbody.
    destruct (ask_for_learning_body_again s0 s1 Hbody)
      as (line & rest & _ & ->).
    exact Hsame.
  - intros [] s0 p s1 (Hb & Hm & Hw) Hbody.
    destruct (ask_for_learning_body_returns s0 s1 p Hbody)
      as (Hvalid & _ & line & rest & _ & ->).
    rewrite Hb in Hvalid. split; [done|].
    unfold learned, after_input, after_print. state_simpl.
    by rewrite Hb, Hm.
  - by unfold same.
Qed.

(** How [ai_move] chooses between the stored move and the teach flow. *)
Lemma ai_move_unfold (s : state) :
  ai_move s =
  match moves s !! board_key (board s) with
  | Some stored =>
      match is_valid_move (board s) stored with
      | Ok true => Some (Ok stored, s)
      | Ok false => ask_for_learning s
      | Raise e => Some (Raise e, s)
      end
  | None => ask_for_learning s
  end.
Proof.
  unfold ai_move, Game.board_key, get_move, gets, Game.is_valid_move, lift,
    mbind, mret, M_bind, M_ret.
  destruct (moves s !! board_key (board s)) as [stored|]; [|done].
  by destruct (is_valid_move (board s) stored) as [[]|e].
Qed.


End MachineMove.


(** ** One round *)

Lemma setitem_lookup {A} (l : list A) (i : Z) (x y : A) :
  0 <= i -> l !! Z.to_nat i = Some y ->
  setitem l i x = Ok (<[Z.to_nat i := x]> l).
Proof.
  intros Hi Hy. apply setitem_in_range.
  apply lookup_lt_Some in Hy. lia.
Qed.

(** Writing [x] over [old] moves one cell from the count of what [old]
    satisfied to the count of what [x] satisfies. *)
Lemma filter_insert_length (P : string -> Prop) `{forall c, Decision (P c)}
    (b : list string) (i : nat) (old x : string) :
  b !! i = Some old ->
  (length (filter P (<[i := x]> b)) + (if decide (P old) then 1 else 0)
   = length (filter P b) + (if decide (P x) then 1 else 0))%nat.
Proof.
  set (before := if decide (P old) then 1%nat else 0%nat).
  set (after := if decide (P x) then 1%nat else 0%nat).
  revert i. induction b as [|c b IH]; intros [|i] Hold; try done.
  - injection Hold as ->. cbn [insert list_insert].
    rewrite !filter_cons. unfold before, after.
    destruct (decide (P old)), (decide (P x)); cbn [length]; lia.
  - cbn [insert list_insert]. rewrite !filter_cons.
    specialize (IH i Hold). cbn [insert] in IH.
    destruct (decide (P c)); cbn [length]; [|exact IH].
    rewrite !Nat.add_succ_l. f_equal. exact IH.
Qed.

(** A mark written into an empty cell: its count and the count of the
    occupied cells grow by one, the count of the other mark stays. *)
Lemma play_counts (b : list string) (cell : nat) (m : string) :
  is_mark m -> b !! cell = Some EMPTY ->
  count_mark m (<[cell := m]> b) = S (count_mark m b)
  /\ count_mark (other_player m) (<[cell := m]> b)
     = count_mark (other_player m) b
  /\ occupied (<[cell := m]> b) = S (occupied b).
Proof.
  intros Hm Hcell. unfold count_mark, occupied.
  pose proof (filter_insert_length (fun c => c = m) b cell EMPTY m Hcell) as H1.
  pose proof (filter_insert_length (fun c => c = other_player m) b cell EMPTY m
                Hcell) as H2.
  pose proof (filter_insert_length (fun c => c <> EMPTY) b cell EMPTY m Hcell)
    as H3.
  destruct Hm as [-> | ->]; cbn in H1, H2, H3 |- *;
    repeat case_decide; try done; lia.
Qed.

Section Round.
Context `{Runtime}.

(** [display] only writes to the console. *)
Lemma display_outcome (s : state) :
  (exists text, Game.display s = Some (Ok tt, after_print text s))
  \/ (exists e, Game.display s = Some (Raise e, s)).
Proof.
  unfold Game.display.
  destruct (mapM (Game.row_str (board s)) [0; 3; 6]) as [rows|e].
  - left. by eexists.
  - right. by exists e.
Qed.

(** What [ai_move] returns is valid on the board, which it leaves as it
    was. *)
Lemma ai_move_returns (s s' : state) (position : Z) :
  ai_move s = Some (Ok position, s') ->
  is_valid_move (board s) position = Ok true /\ board s' = board s.
Proof.
  rewrite ai_move_unfold.
  destruct (moves s !! board_key (board s)) as [stored|].
  - destruct (is_valid_move (board s) stored) as [[]|e] eqn:Hvalid; try done.
    + by intros [= <- <-].
    + intros Hteach.
      by destruct (ask_for_learning_returns s s' position Hteach)
        as (? & ? & _).
  - intros Hteach.
    by destruct (ask_for_learning_returns s s' position Hteach)
      as (? & ? & _).
Qed.

(** A turn that is taken writes the mark of the player into a cell that
    was empty. *)
Lemma take_turn_returns (current_player : string) (s s' : state) :
  take_turn current_player s = Some (Ok tt, s') ->
  exists cell : nat,
    board s !! cell = Some EMPTY
    /\ board s' = <[cell := current_player]> (board s).
Proof.
  unfold take_turn, mbind, M_bind.
  destruct (display_outcome s) as [(text & ->) | (e & ->)]; [|done].
  assert (Hmove : forall s1 s2 position,
             board s1 = board s ->
             is_valid_move (board s1) position = Ok true ->
             board s2 = board s1 ->
             Game.apply_move position current_player s2 = Some (Ok tt, s') ->
             exists cell : nat,
               board s !! cell = Some EMPTY
               /\ board s' = <[cell := current_player]> (board s)).
  { intros s1 s2 position Hb1 Hvalid Hb2. unfold Game.apply_move, apply_move.
    apply is_valid_move_true in Hvalid as [Hrange Hcell].
    rewrite Hb2, (setitem_lookup _ _ _ _ (proj1 Hrange) Hcell).
    intros [= <-]. exists (Z.to_nat position). state_simpl.
    by rewrite <- Hb1. }
  destruct (String.eqb current_player HUMAN).
  - destruct (request_human_move _) as [[[position|e] s1]|] eqn:Hreq; try done.
    apply request_human_move_returns in Hreq as (Hvalid & Hb & _).
    by apply (Hmove (after_print text s) s1 position).
  - unfold print at 1, modify. cbn beta iota.
    destruct (ai_move _) as [[[position|e] s1]|] eqn:Hai; try done.
    apply ai_move_returns in Hai as (Hvalid & Hb).
    by apply (Hmove (after_print text s) s1 position).
Qed.

(** The second half of a pass goes round again only without touching
    the state, and hands the turn to the other player. *)
Lemma conclude_turn_again (current_player next : string) (s s' : state) :
  conclude_turn current_player s = Some (Ok (inl next), s') ->
  s' = s /\ next = other_player current_player
  /\ exists winner, check_winner (board s) = Ok winner
                    /\ truthy winner = false.
Proof.
  unfold conclude_turn, Game.check_winner, lift, mbind, mret, M_bind, M_ret.
  destruct (check_winner (board s)) as [winner|e]; [|done].
  destruct (truthy winner) eqn:Htruthy.
  - destruct (display_outcome s) as [(text & ->) | (e & ->)]; [|done].
    unfold print, modify. by repeat case_bool_decide.
  - intros [= <- <-]. split; [done|]. split; [done|]. by exists winner.
Qed.

End Round.

Section RoundInvariant.
Context `{Runtime}.

(** A pass that goes round again has taken a turn, and nothing more. *)
Lemma play_round_body_again (current_player next : string) (s s' : state) :
  play_round_body current_player s = Some (Ok (inl next), s') ->
  take_turn current_player s = Some (Ok tt, s')
  /\ next = other_player current_player.
Proof.
  unfold play_round_body, mbind, M_bind.
  destruct (take_turn current_player s) as [[[[]|e] s1]|]; try done.
  intros Hend. by apply conclude_turn_again in Hend as (-> & -> & _).
Qed.

(** What holds whenever a pass of the round begins. *)
Lemma round_at_holds (n : nat) (current_player : string) (s : state) :
  round_at n current_player s ->
  length (board s) = 9%nat
  /\ (Nat.Even n /\ current_player = HUMAN
      \/ Nat.Odd n /\ current_player = AI)
  /\ occupied (board s) = n
  /\ (count_mark HUMAN (board s) + count_mark AI (board s) = n)%nat.
Proof.
  induction 1 as [s Hb | n cp cp' s s' _ IH Hbody].
  - rewrite Hb. split; [done|]. split; [|done].
    left. split; [|done]. by exists 0%nat.
  - destruct IH as (Hlen & Hturn & Hocc & Hsum).
    apply play_round_body_again in Hbody as (Hturn' & ->).
    apply take_turn_returns in Hturn' as (cell & Hcell & ->).
    assert (Hmark : is_mark cp).
    { destruct Hturn as [[_ ->] | [_ ->]]; [by left | by right]. }
    destruct (play_counts (board s) cell cp Hmark Hcell)
      as (Hown & Hother & Hocc').
    split; [by rewrite length_insert|].
    split; [|split; [lia|]].
    + destruct Hturn as [[Heven ->] | [Hodd ->]].
      * right. split; [by apply Nat.Odd_succ | done].
      * left. split; [by apply Nat.Even_succ | done].
    + destruct Hturn as [[_ ->] | [_ ->]];
        change (other_player HUMAN) with AI in Hother;
        change (other_player AI) with HUMAN in Hother; lia.
Qed.

(** C9. Whenever a pass of the round begins after [n] turns, the board
    has nine cells of which [n] are occupied, all by the two marks, and
    X is to move after an even number of turns, O after an odd one. The
    turn that follows, when a move is applied, writes the mark of the
    player into one cell that was empty: that mark counts one more, the
    other mark as many as before, and [n + 1] cells are occupied. *)
Theorem round_invariant (n : nat) (current_player : string) (s : state) :
  round_at n current_player s ->
  (length (board s) = 9%nat
   /\ (Nat.Even n /\ current_player = HUMAN
       \/ Nat.Odd n /\ current_player = AI)
   /\ occupied (board s) = n
   /\ (count_mark HUMAN (board s) + count_mark AI (board s) = n)%nat)
  /\ forall s',
      take_turn current_player s = Some (Ok tt, s') ->
      exists cell : nat,
        board s !! cell = Some EMPTY
        /\ board s' = <[cell := current_player]> (board s)
        /\ count_mark current_player (board s')
           = S (count_mark current_player (board s))
        /\ count_mark (other_player current_player) (board s')
           = count_mark (other_player current_player) (board s)
        /\ occupied (board s') = S n.
Proof.
  intros Hround.
  pose proof (round_at_holds n current_player s Hround)
    as (Hlen & Hturn & Hocc & Hsum).
  split; [done|]. intros s' Htake.
  apply take_turn_returns in Htake as (cell & Hcell & Hboard).
  assert (Hmark : is_mark current_player).
  { destruct Hturn as [[_ ->] | [_ ->]]; [by left | by right]. }
  destruct (play_counts (board s) cell current_player Hmark Hcell)
    as (Hown & Hother & Hocc').
  exists cell. rewrite Hboard. split; [done|]. split; [done|].
  split; [done|]. split; [done|]. lia.
Qed.

End RoundInvariant.

Lemma round_invariant_witness :
  let rt := fixed_runtime (Raise JSONDecodeError) "" in
  @round_at rt 1 AI after_opening /\
  board after_opening = centre_taken /\
  occupied (board after_opening) = 1%nat /\
  (count_mark HUMAN (board after_opening)
   + count_mark AI (board after_opening) = 1)%nat.
Proof.
  intros rt.
  assert (Hround : @round_at rt 1 AI after_opening).
  { apply (@round_next rt 0 HUMAN AI opening after_opening).
    - by apply round_start.
    - vm_compute. reflexivity. }
  split; [exact Hround|]. split; [reflexivity|].
  destruct (@round_invariant rt 1 AI after_opening Hround)
    as [(_ & _ & Hocc & Hsum) _].
  by split.
Defined.

(** ** Nine passes are enough for a round *)

Lemma valid_board_insert (b : list string) (cell : nat) (m : string) :
  valid_board b -> is_mark m -> valid_board (<[cell := m]> b).
Proof.
  intros [Hlen Hcells] Hm. split; [by rewrite length_insert|].
  apply Forall_insert; [done|]. destruct Hm; [by left | by right; left].
Qed.

Lemma occupied_with_empty (b : list string) :
  EMPTY ∈ b -> (occupied b < length b)%nat.
Proof.
  unfold occupied. induction b as [|c b IH]; intros Hin.
  - by apply elem_of_nil in Hin.
  - rewrite filter_cons. apply elem_of_cons in Hin as [<- | Hin].
    + rewrite decide_False by (by intros ?).
      pose proof (length_filter (fun c => c <> EMPTY) b). cbn [length]. lia.
    + specialize (IH Hin). destruct (decide (c <> EMPTY)); cbn [length]; lia.
Qed.

Section RoundEnds.
Context `{Runtime}.

Lemma round_at_valid (n : nat) (current_player : string) (s : state) :
  round_at n current_player s -> valid_board (board s).
Proof.
  induction 1 as [s Hb | n cp cp' s s' Hround IH Hbody].
  - rewrite Hb. exact valid_board_init.
  - apply round_at_holds in Hround as (_ & Hturn & _).
    apply play_round_body_again in Hbody as (Htake & _).
    apply take_turn_returns in Htake as (cell & _ & ->).
    apply valid_board_insert; [done|].
    destruct Hturn as [[_ ->] | [_ ->]]; [by left | by right].
Qed.

(** The round goes on only while a cell is empty: a pass begins after
    at most eight turns. *)
Lemma round_at_bound (n : nat) (current_player : string) (s : state) :
  round_at n current_player s -> (n < 9)%nat.
Proof.
  intros Hround. destruct Hround as [s Hb | n cp cp' s s' Hround Hbody].
  - lia.
  - assert (Hnext : round_at (S n) cp' s') by (by eapply round_next).
    pose proof (round_at_valid _ _ _ Hnext) as Hvalid.
    apply round_at_holds in Hnext as (Hlen & _ & Hocc & _).
    unfold play_round_body, mbind, M_bind in Hbody.
    destruct (take_turn cp s) as [[[[]|e] s1]|]; try done.
    apply conclude_turn_again in Hbody as (-> & _ & winner & Hwinner & Hfalse).
    destruct (check_winner_cases (board s1) Hvalid)
      as [(m & Hm & _ & Hw) | [(_ & _ & Hw) | (_ & Hempty & _)]].
    + rewrite Hw in Hwinner. injection Hwinner as <-.
      by destruct Hm as [-> | ->].
    + rewrite Hw in Hwinner. by injection Hwinner as <-.
    + apply occupied_with_empty in Hempty. lia.
Qed.

Lemma display_ends (s : state) : Game.display s <> None.
Proof. by destruct (display_outcome s) as [(text & ->) | (e & ->)]. Qed.

Lemma ai_move_ends (s : state) : ai_move s <> None.
Proof.
  rewrite ai_move_unfold.
  destruct (moves s !! board_key (board s)) as [stored|];
    [destruct (is_valid_move (board s) stored) as [[]|e]; try done|];
    apply ask_for_learning_ends.
Qed.

Lemma apply_move_ends (position : Z) (player : string) (s : state) :
  Game.apply_move position player s <> None.
Proof.
  unfold Game.apply_move. by destruct (apply_move _ _ _).
Qed.

Lemma take_turn_ends (current_player : string) (s : state) :
  take_turn current_player s <> None.
Proof.
  unfold take_turn, mbind, M_bind.
  destruct (display_outcome s) as [(text & ->) | (e & ->)]; [|done].
  destruct (String.eqb current_player HUMAN).
  - pose proof (request_human_move_ends (after_print text s)) as Hends.
    destruct (request_human_move _) as [[[position|e] s1]|]; try done.
    apply apply_move_ends.
  - unfold print at 1, modify. cbn beta iota.
    pose proof (ai_move_ends (after_print Msg.ai_turn (after_print text s)))
      as Hends.
    destruct (ai_move _) as [[[position|e] s1]|]; try done.
    apply apply_move_ends.
Qed.

Lemma conclude_turn_ends (current_player : string) (s : state) :
  conclude_turn current_player s <> None.
Proof.
  unfold conclude_turn, Game.check_winner, lift, mbind, mret, M_bind, M_ret.
  destruct (check_winner (board s)) as [winner|e]; [|done].
  destruct (truthy winner); [|done].
  destruct (display_outcome s) as [(text & ->) | (e & ->)]; [|done].
  unfold print, modify. by repeat case_bool_decide.
Qed.

Lemma play_round_body_ends (current_player : string) (s : state) :
  play_round_body current_player s <> None.
Proof.
  unfold play_round_body, mbind, M_bind.
  pose proof (take_turn_ends current_player s) as Hends.
  destruct (take_turn current_player s) as [[[[]|e] s1]|]; try done.
  apply conclude_turn_ends.
Qed.

(** The loop of [play_round], entered after [n] turns with the passes
    that are left of its nine, ends. *)
Lemma play_round_loop_ends (fuel n : nat) (current_player : string)
    (s : state) :
  round_at n current_player s -> (n + fuel = 9)%nat ->
  while_true fuel play_round_body current_player s <> None.
Proof.
  revert n current_player s.
  induction fuel as [|fuel IH]; intros n cp s Hround Hfuel.
  - apply round_at_bound in Hround. lia.
  - rewrite while_true_step.
    pose proof (play_round_body_ends cp s) as Hends.
    destruct (play_round_body cp s) as [[[[cp'|[]]|e] s']|] eqn:Hbody;
      try done.
    apply (IH (S n)); [|lia]. by eapply round_next.
Qed.

(** Every round ends: with a winner or a draw announced, or with an
    exception. *)
Lemma play_round_ends (s : state) : play_round s <> None.
Proof.
  unfold play_round, Game.init, KnowledgeBase.init, print, modify,
    mbind, M_bind.
  destruct (_load (set_moves ∅ (set_board init_board s)))
    as [[[[]|e] s1]|] eqn:Hload; [|done|].
  - apply (play_round_loop_ends 9 0); [|done].
    apply round_start. apply _load_keeps_board in Hload.
    state_simpl. by rewrite Hload.
  - by destruct (_load_outcome (set_moves ∅ (set_board init_board s)))
      as (r & s1 & Hsome & _); rewrite Hload in Hsome.
Qed.

End RoundEnds.

(** ** The scenarios of the specification *)

Lemma int_of_str_one_digit (max_digits : N) (c : ascii) (d : Z) :
  decimal_char c = Some d -> int_of_str max_digits (String c "") = Ok d.
Proof.
  destruct c as [[] [] [] [] [] [] [] []]; try discriminate;
    intros [= <-]; by destruct max_digits as [|[]].
Qed.

(** Scenario B: a first row of X wins for X. *)
Example scenario_first_row :
  check_winner ["X"; "X"; "X"; " "; " "; " "; " "; " "; " "] = Ok (Some HUMAN).
Proof. reflexivity. Qed.

(** Scenario C: a full board without a line is a draw. *)
Example scenario_full_board :
  check_winner ["X"; "O"; "X"; "X"; "O"; "O"; "O"; "X"; "X"]
  = Ok (Some "Empate").
Proof. reflexivity. Qed.

(** Scenario D: the entry 0 is turned down and asked again, the board
    untouched. *)
Example scenario_entry_zero `{Runtime} (s : state) (rest : list string) :
  stdin s = "0" :: rest ->
  request_human_move s
  = request_human_move
      (after_print Msg.invalid_move (after_input Msg.move_prompt rest s))
  /\ board (after_print Msg.invalid_move (after_input Msg.move_prompt rest s))
     = board s.
Proof.
  intros Hin. split; [|done].
  apply (request_human_move_rejects_invalid s "0" rest 0 Hin).
  - reflexivity.
  - by apply int_of_str_one_digit.
  - apply is_valid_move_out_of_range. lia.
Qed.

(** Scenario A: with nothing known, after X in the centre the machine is
    taught cell 1; it plays index 0, finds it again under the same key,
    and the file holds the pair. *)
Example scenario_teach `{Runtime} :
  let s := State centre_taken ∅ ["1"] [] Missing true in
  exists s',
    ai_move s = Some (Ok 0, s')
    /\ KnowledgeBase.get_move (board_key centre_taken) s'
       = Some (Ok (Some 0), s')
    /\ disk s'
       = Text (json_dump
                 (KnowledgeBase.document {[ board_key centre_taken := 0 ]})).
Proof.
  intros s. eexists. split; [|split].
  - rewrite ai_move_unfold. change (moves s !! _) with (@None Z).
    cbv iota. rewrite ask_for_learning_unfold. unfold input_loop.
    set (s1 := after_print Msg.teach_howto (after_print Msg.teach_intro s)).
    change (length (stdin s1)) with 1%nat. rewrite while_true_step.
    rewrite (ask_for_learning_body_line s1 "1" [] eq_refl). cbv zeta.
    change (isdigit (strip "1")) with true. cbv iota.
    change (strip "1") with "1".
    rewrite (int_of_str_one_digit _ "1" 1 eq_refl).
    reflexivity.
  - unfold KnowledgeBase.get_move, gets, learned. state_simpl.
    by rewrite lookup_insert_eq.
  - unfold learned, after_input, after_print, s. state_simpl. reflexivity.
Qed.

(** ** More on the board: moves that can be played *)

Lemma elem_of_available_moves (b : list string) (p : Z) :
  p ∈ available_moves b <-> 0 <= p /\ b !! Z.to_nat p = Some EMPTY.
Proof.
  unfold available_moves. rewrite list_elem_of_omap. split.
  - intros ([i v] & Hin & Hf).
    apply elem_of_lookup_imap in Hin as (i' & v' & [= -> ->] & Hl).
    destruct (String.eqb_spec v' EMPTY) as [->|]; [|done].
    injection Hf as <-. split; [lia|]. by rewrite Nat2Z.id.
  - intros [Hp Hl]. exists (Z.to_nat p, EMPTY). split.
    + apply elem_of_lookup_imap. by exists (Z.to_nat p), EMPTY.
    + rewrite String.eqb_refl. f_equal. lia.
Qed.

(** The indices kept from position [k] on are in ascending order and not
    below [k]. *)
Lemma available_from_sorted (l : list string) (k : nat) :
  let kept := omap (fun '(idx, value) =>
                      if String.eqb value EMPTY then Some (Z.of_nat idx)
                      else None)
                   (imap (fun i => pair (k + i)%nat) l) in
  StronglySorted Z.lt kept /\ Forall (fun p => Z.of_nat k <= p) kept.
Proof.
  revert k. induction l as [|c l IH]; intros k; cbn zeta.
  - split; constructor.
  - rewrite imap_cons.
    rewrite (imap_ext _ (fun i => pair (S k + i)%nat)); last first.
    { intros i x _. cbn. f_equal. lia. }
    destruct (IH (S k)) as [Hsorted Hlow]. cbn zeta in Hsorted, Hlow.
    cbn [omap list_omap]. rewrite Nat.add_0_r.
    assert (Hlow' : Forall (fun p => Z.of_nat k <= p)
              (omap (fun '(idx, value) =>
                       if String.eqb value EMPTY then Some (Z.of_nat idx)
                       else None)
                    (imap (fun i => pair (S k + i)%nat) l))).
    { eapply Forall_impl; [exact Hlow|]. intros p Hp. cbn beta in Hp. lia. }
    destruct (String.eqb c EMPTY).
    + split.
      * constructor; [done|]. eapply Forall_impl; [exact Hlow|].
        intros p Hp. cbn beta in Hp. lia.
      * constructor; [lia|done].
    + by split.
Qed.

(** X1. [available_moves] lists, in ascending order, exactly the indices
    of the empty cells; on a board of nine cells these are exactly the
    positions [is_valid_move] accepts. *)
Theorem available_moves_spec (b : list string) :
  StronglySorted Z.lt (available_moves b)
  /\ (forall p, p ∈ available_moves b
               <-> 0 <= p /\ b !! Z.to_nat p = Some EMPTY)
  /\ (length b = 9%nat ->
      forall p, p ∈ available_moves b <-> is_valid_move b p = Ok true).
Proof.
  split; [|split].
  - apply (available_from_sorted b 0).
  - apply elem_of_available_moves.
  - intros Hlen p. rewrite elem_of_available_moves. split.
    + intros [Hp Hcell]. pose proof (lookup_lt_Some _ _ _ Hcell) as Hlt.
      destruct (is_valid_move_in_range b p Hlen) as (cell & Hcell' & ->);
        [lia|].
      rewrite Hcell in Hcell'. injection Hcell' as <-.
      by rewrite bool_decide_eq_true_2.
    + intros Hvalid. apply is_valid_move_true in Hvalid as [Hrange Hcell].
      split; [lia|done].
Qed.

(** X2. On a board of the game, while [check_winner] answers nothing
    there is a move [is_valid_move] accepts, and once it answers the draw
    [available_moves] is empty. *)
Theorem undecided_has_move (b : list string) :
  valid_board b ->
  (check_winner b = Ok None ->
   exists p, p ∈ available_moves b /\ is_valid_move b p = Ok true)
  /\ (check_winner b = Ok (Some "Empate") -> available_moves b = []).
Proof.
  intros Hb. pose proof Hb as [Hlen _].
  destruct (check_winner_cases b Hb)
    as [(m & Hm & _ & Hw) | [(_ & Hfull & Hw) | (_ & Hcell & Hw)]];
    rewrite Hw; split; try done.
  - intros [= ->]. by destruct (mark_not_draw _ Hm).
  - intros _. destruct (available_moves b) as [|p l] eqn:Hmoves; [done|].
    assert (Hp : p ∈ available_moves b) by (rewrite Hmoves; by left).
    apply elem_of_available_moves in Hp as [_ Hp].
    destruct Hfull. apply list_elem_of_lookup. by eexists.
  - intros _. apply list_elem_of_lookup in Hcell as [i Hi].
    pose proof (lookup_lt_Some _ _ _ Hi) as Hlt.
    exists (Z.of_nat i).
    assert (Hin : Z.of_nat i ∈ available_moves b).
    { apply elem_of_available_moves. split; [lia|]. by rewrite Nat2Z.id. }
    split; [done|].
    destruct (is_valid_move_in_range b (Z.of_nat i) Hlen)
      as (cell & Hcell' & ->); [lia|].
    rewrite Nat2Z.id, Hi in Hcell'. injection Hcell' as <-.
    by rewrite bool_decide_eq_true_2.
Qed.

Lemma undecided_has_move_witness :
  valid_board init_board /\
  (check_winner init_board = Ok None ->
   exists p, p ∈ available_moves init_board
             /\ is_valid_move init_board p = Ok true).
Proof.
  split; [exact valid_board_init|].
  exact (proj1 (undecided_has_move init_board valid_board_init)).
Defined.

(** ** More on the board: applying a move *)

(** X3. [apply_move] checks nothing but the index: on a board of [n]
    cells every position from [-n] to [n - 1] is written, a negative one
    counting from the end and whatever the cell held, and every other
    position raises [IndexError]. *)
Theorem apply_move_bounds (b : list string) (position : Z) (player : string) :
  let n := Z.of_nat (length b) in
  (- n <= position < n ->
   apply_move b position player
   = Ok (<[Z.to_nat (position mod n) := player]> b))
  /\ (~ (- n <= position < n) ->
      apply_move b position player = Raise IndexError).
Proof.
  intros n. unfold apply_move, setitem. fold n. split.
  - intros Hrange. destruct (Z.ltb_spec position 0) as [Hneg|Hpos].
    + destruct (Z.ltb_spec (position + n) 0) as [?|_]; [lia|].
      assert (Hmod : position mod n = position + n).
      { rewrite <- (Z.mod_small (position + n) n) by lia.
        rewrite <- (Z.mul_1_l n) at 2. by rewrite Z.mod_add by lia. }
      rewrite Hmod.
      destruct (lookup_lt_is_Some_2 b (Z.to_nat (position + n))) as [y ->];
        [unfold n; lia | done].
    + destruct (Z.ltb_spec position 0) as [?|_]; [lia|].
      rewrite Z.mod_small by lia.
      destruct (lookup_lt_is_Some_2 b (Z.to_nat position)) as [y ->];
        [unfold n in *; lia | done].
  - intros Hout. destruct (Z.ltb_spec position 0) as [Hneg|Hpos].
    + destruct (Z.ltb_spec (position + n) 0) as [_|?]; [done|lia].
    + destruct (Z.ltb_spec position 0) as [?|_]; [lia|].
      rewrite lookup_ge_None_2; [done|]. unfold n in *. lia.
Qed.

(** X4. A move that [is_valid_move] accepts can be applied; the board
    keeps its length, the cell then holds the mark and is no longer
    accepted, and every other position is accepted or not as before. *)
Theorem apply_move_after_valid (b : list string) (position : Z)
    (player : string) :
  is_valid_move b position = Ok true ->
  player <> EMPTY ->
  exists b',
    apply_move b position player = Ok b'
    /\ length b' = length b
    /\ b' !! Z.to_nat position = Some player
    /\ is_valid_move b' position = Ok false
    /\ (forall other, other <> position ->
          is_valid_move b' other = is_valid_move b other)
    /\ (forall p, p ∈ available_moves b'
                  <-> p ∈ available_moves b /\ p <> position).
Proof.
  intros Hvalid Hplayer.
  apply is_valid_move_true in Hvalid as [Hrange Hcell].
  pose proof (lookup_lt_Some _ _ _ Hcell) as Hlt.
  exists (<[Z.to_nat position := player]> b).
  split; [apply (setitem_lookup b position player EMPTY); [lia|done]|].
  split; [by rewrite length_insert|].
  split; [by apply list_lookup_insert_eq|].
  assert (Hread : forall q, 0 <= q -> q <> position ->
            <[Z.to_nat position := player]> b !! Z.to_nat q
            = b !! Z.to_nat q).
  { intros q Hq Hne. apply list_lookup_insert_ne. lia. }
  split; [|split].
  - unfold is_valid_move.
    destruct (Z.leb_spec 0 position), (Z.ltb_spec position 9); try lia.
    cbn [andb].
    rewrite (getitem_lookup _ position player);
      [|lia|by apply list_lookup_insert_eq].
    cbn. f_equal. by apply String.eqb_neq.
  - intros other Hne. unfold is_valid_move.
    destruct (Z.leb_spec 0 other), (Z.ltb_spec other 9); try done.
    cbn [andb]. unfold getitem.
    destruct (Z.ltb_spec other 0); [lia|].
    destruct (Z.ltb_spec other 0); [lia|].
    by rewrite Hread.
  - intros p. rewrite !elem_of_available_moves. split.
    + intros [Hp Hl]. destruct (decide (p = position)) as [->|Hne].
      * rewrite list_lookup_insert_eq in Hl by done. congruence.
      * rewrite Hread in Hl by done. done.
    + intros [[Hp Hl] Hne]. split; [done|]. by rewrite Hread.
Qed.

Lemma apply_move_after_valid_witness :
  is_valid_move init_board 4 = Ok true /\ HUMAN <> EMPTY /\
  exists b',
    apply_move init_board 4 HUMAN = Ok b'
    /\ length b' = length init_board
    /\ b' !! Z.to_nat 4 = Some HUMAN
    /\ is_valid_move b' 4 = Ok false
    /\ (forall other, other <> 4 ->
          is_valid_move b' other = is_valid_move init_board other)
    /\ (forall p, p ∈ available_moves b'
                  <-> p ∈ available_moves init_board /\ p <> 4).
Proof.
  assert (Hne : HUMAN <> EMPTY) by done.
  split; [reflexivity|]. split; [exact Hne|].
  exact (apply_move_after_valid init_board 4 HUMAN eq_refl Hne).
Defined.

(** ** More on the key of a board *)

Lemma join_cells_get (b : list string) (i : nat) (c : ascii) :
  Forall (fun cell => exists ch, cell = String ch "") b ->
  String.get i (Py.join "" b) = Some c <-> b !! i = Some (String c "").
Proof.
  intros Hb. revert i. induction Hb as [|x b [ch ->] _ IH]; intros i.
  - by destruct i.
  - rewrite join_single_char. destruct i as [|i]; cbn [String.get].
    + split; [by intros [= ->] | by intros [= ->]].
    + apply IH.
Qed.

Lemma join_cells_length (b : list string) :
  Forall (fun cell => exists ch, cell = String ch "") b ->
  String.length (Py.join "" b) = length b.
Proof.
  induction 1 as [|x b [ch ->] _ IH]; [done|].
  rewrite join_single_char. cbn [String.length length]. by rewrite IH.
Qed.

(** X5. The key of a board of the game has nine characters, and its
    character at index [i] is the content of cell [i]: the board can be
    read back from its key. *)
Theorem board_key_cells (b : list string) :
  valid_board b ->
  String.length (board_key b) = 9%nat
  /\ forall (i : nat) (c : ascii),
       String.get i (board_key b) = Some c <-> b !! i = Some (String c "").
Proof.
  intros [Hlen Hcells].
  assert (Hsingle : Forall (fun cell => exists ch, cell = String ch "") b).
  { eapply Forall_impl; [exact Hcells|]. apply valid_cell_single_char. }
  split.
  - unfold board_key. by rewrite join_cells_length.
  - intros i c. by apply join_cells_get.
Qed.

Lemma board_key_cells_witness :
  valid_board two_lines_board /\
  String.length (board_key two_lines_board) = 9%nat /\
  forall (i : nat) (c : ascii),
    String.get i (board_key two_lines_board) = Some c
    <-> two_lines_board !! i = Some (String c "").
Proof.
  split; [exact valid_board_two_lines|].
  exact (board_key_cells two_lines_board valid_board_two_lines).
Defined.

(** ** The display of the board *)

Lemma shown_cell (b : list string) (z : Z) (i : nat) (cell : string) :
  z = Z.of_nat i ->
  b !! i = Some cell ->
  (c ← getitem b z;
   if negb (String.eqb c EMPTY) then getitem b z
   else mret (pretty (z + 1)))
  = Ok (shown cell i).
Proof.
  intros -> Hcell.
  rewrite (getitem_lookup b (Z.of_nat i) cell); [|lia|by rewrite Nat2Z.id].
  cbn [mbind result_bind]. unfold shown.
  by destruct (String.eqb cell EMPTY).
Qed.

Lemma row_str_cells (b : list string) (start : nat) (c0 c1 c2 : string) :
  b !! start = Some c0 -> b !! S start = Some c1 ->
  b !! S (S start) = Some c2 ->
  Game.row_str b (Z.of_nat start)
  = Ok (Py.join " | " [shown c0 start; shown c1 (S start);
                       shown c2 (S (S start))]).
Proof.
  intros H0 H1 H2. unfold Game.row_str. cbn [mapM].
  rewrite (shown_cell b (Z.of_nat start + 0) start c0) by (done || lia).
  rewrite (shown_cell b (Z.of_nat start + 1) (S start) c1) by (done || lia).
  rewrite (shown_cell b (Z.of_nat start + 2) (S (S start)) c2)
    by (done || lia).
  done.
Qed.

(** On a board of nine cells [display] writes the rendering of the board
    and does nothing else. *)
Lemma display_renders (s : state) :
  length (board s) = 9%nat ->
  Game.display s = Some (Ok tt, after_print (rendering (board s)) s).
Proof.
  intros Hlen. unfold Game.display.
  destruct (board s) as [|c0 [|c1 [|c2 [|c3 [|c4 [|c5 [|c6 [|c7 [|c8 [|]]]]]]]]]]
    eqn:Hb; try done.
  set (b := [c0; c1; c2; c3; c4; c5; c6; c7; c8]). cbn [mapM].
  pose proof (row_str_cells b 0 c0 c1 c2 eq_refl eq_refl eq_refl) as R0.
  pose proof (row_str_cells b 3 c3 c4 c5 eq_refl eq_refl eq_refl) as R3.
  pose proof (row_str_cells b 6 c6 c7 c8 eq_refl eq_refl eq_refl) as R6.
  change (Z.of_nat 0) with 0 in R0. change (Z.of_nat 3) with 3 in R3.
  change (Z.of_nat 6) with 6 in R6.
  rewrite R0. cbn [mbind result_bind]. rewrite R3. cbn [mbind result_bind].
  rewrite R6. done.
Qed.

(** A cell of the game shows as one character, from which the cell can
    be told. *)
Lemma shown_valid (cell : string) (i : nat) :
  cell = HUMAN \/ cell = AI \/ cell = EMPTY -> (i < 9)%nat ->
  exists ch, shown cell i = String ch ""
             /\ (ch = "X"%char /\ cell = HUMAN \/ ch = "O"%char /\ cell = AI
                 \/ ch <> "X"%char /\ ch <> "O"%char /\ cell = EMPTY).
Proof.
  intros Hcell Hi.
  do 9 (destruct i as [|i]; [destruct Hcell as [-> | [-> | ->]];
                             eexists; (split; [reflexivity|]);
                             [left | right; left
                              | right; right; split; [|split]]; done|]).
  lia.
Qed.

Lemma shown_char_tells (ch : ascii) (c c' : string) :
  (ch = "X"%char /\ c = HUMAN \/ ch = "O"%char /\ c = AI
   \/ ch <> "X"%char /\ ch <> "O"%char /\ c = EMPTY) ->
  (ch = "X"%char /\ c' = HUMAN \/ ch = "O"%char /\ c' = AI
   \/ ch <> "X"%char /\ ch <> "O"%char /\ c' = EMPTY) ->
  c = c'.
Proof.
  intros [[-> ->] | [[-> ->] | (? & ? & ->)]]
         [[? ->] | [[? ->] | (? & ? & ->)]]; congruence.
Qed.

(** X6. On a board of the game [display] never raises and only writes,
    to the console, a text of 51 characters; the text tells the board:
    two boards shown alike are the same board. *)
Theorem display_faithful (s1 s2 : state) :
  valid_board (board s1) -> valid_board (board s2) ->
  exists t1 t2,
    Game.display s1 = Some (Ok tt, after_print t1 s1)
    /\ Game.display s2 = Some (Ok tt, after_print t2 s2)
    /\ String.length t1 = 51%nat
    /\ (t1 = t2 -> board s1 = board s2).
Proof.
  intros [Hlen1 Hcells1] [Hlen2 Hcells2].
  exists (rendering (board s1)), (rendering (board s2)).
  split; [by apply display_renders|]. split; [by apply display_renders|].
  destruct (board s1) as [|a0 [|a1 [|a2 [|a3 [|a4 [|a5 [|a6 [|a7 [|a8 [|]]]]]]]]]];
    try done.
  destruct (board s2) as [|b0 [|b1 [|b2 [|b3 [|b4 [|b5 [|b6 [|b7 [|b8 [|]]]]]]]]]];
    try done.
  clear Hlen1 Hlen2.
  repeat match goal with
         | H : Forall _ (_ :: _) |- _ => apply Forall_cons in H as [? H]
         end.
  unfold rendering. cbn [lookup list_lookup default from_option]. unfold id.
  destruct (shown_valid a0 0) as (x0 & -> & Hx0); [done|lia|].
  destruct (shown_valid a1 1) as (x1 & -> & Hx1); [done|lia|].
  destruct (shown_valid a2 2) as (x2 & -> & Hx2); [done|lia|].
  destruct (shown_valid a3 3) as (x3 & -> & Hx3); [done|lia|].
  destruct (shown_valid a4 4) as (x4 & -> & Hx4); [done|lia|].
  destruct (shown_valid a5 5) as (x5 & -> & Hx5); [done|lia|].
  destruct (shown_valid a6 6) as (x6 & -> & Hx6); [done|lia|].
  destruct (shown_valid a7 7) as (x7 & -> & Hx7); [done|lia|].
  destruct (shown_valid a8 8) as (x8 & -> & Hx8); [done|lia|].
  destruct (shown_valid b0 0) as (y0 & -> & Hy0); [done|lia|].
  destruct (shown_valid b1 1) as (y1 & -> & Hy1); [done|lia|].
  destruct (shown_valid b2 2) as (y2 & -> & Hy2); [done|lia|].
  destruct (shown_valid b3 3) as (y3 & -> & Hy3); [done|lia|].
  destruct (shown_valid b4 4) as (y4 & -> & Hy4); [done|lia|].
  destruct (shown_valid b5 5) as (y5 & -> & Hy5); [done|lia|].
  destruct (shown_valid b6 6) as (y6 & -> & Hy6); [done|lia|].
  destruct (shown_valid b7 7) as (y7 & -> & Hy7); [done|lia|].
  destruct (shown_valid b8 8) as (y8 & -> & Hy8); [done|lia|].
  split; [reflexivity|].
  intros Htext. cbv in Htext.
  injection Htext as -> -> -> -> -> -> -> -> ->.
  by rewrite (shown_char_tells _ a0 b0 Hx0 Hy0),
    (shown_char_tells _ a1 b1 Hx1 Hy1), (shown_char_tells _ a2 b2 Hx2 Hy2),
    (shown_char_tells _ a3 b3 Hx3 Hy3), (shown_char_tells _ a4 b4 Hx4 Hy4),
    (shown_char_tells _ a5 b5 Hx5 Hy5), (shown_char_tells _ a6 b6 Hx6 Hy6),
    (shown_char_tells _ a7 b7 Hx7 Hy7), (shown_char_tells _ a8 b8 Hx8 Hy8).
Qed.

Lemma display_faithful_witness :
  valid_board (board opening) /\ valid_board (board knows_reply) /\
  exists t1 t2,
    Game.display opening = Some (Ok tt, after_print t1 opening)
    /\ Game.display knows_reply = Some (Ok tt, after_print t2 knows_reply)
    /\ String.length t1 = 51%nat
    /\ (t1 = t2 -> board opening = board knows_reply).
Proof.
  assert (H1 : valid_board (board opening)) by exact valid_board_init.
  assert (H2 : valid_board (board knows_reply)).
  { split; [reflexivity|].
    repeat constructor; first [by left | by right; left | by right; right]. }
  split; [exact H1|]. split; [exact H2|].
  exact (display_faithful opening knows_reply H1 H2).
Defined.

(** ** More on the knowledge base: what [_load] makes of a file *)

(** The comprehension over items with distinct keys whose values [int]
    converts: a key is bound to the integer of its value, and the keys
    the items do not name keep what [acc] gave them. *)
Lemma comprehension_converts `{Runtime} (items : list (string * json)) :
  NoDup items.*1 ->
  Forall (fun item => exists n, py_int item.2 = Ok n) items ->
  forall acc, exists loaded,
    comprehension items acc = Ok loaded
    /\ forall key n,
         loaded !! key = Some n <->
         (exists v, (key, v) ∈ items /\ py_int v = Ok n)
         \/ ((key ∉ items.*1) /\ acc !! key = Some n).
Proof.
  induction items as [|[k v] items IH]; intros Hnodup Hconv acc.
  - exists acc. split; [done|]. intros key n. split.
    + intros Hacc. right. split; [|done]. apply not_elem_of_nil.
    + intros [(v & Hin & _) | [_ Hacc]]; [|done].
      by apply elem_of_nil in Hin.
  - apply NoDup_cons in Hnodup as [Hfresh Hnodup].
    apply Forall_cons in Hconv as [[n0 Hn0] Hconv]. cbn in Hn0.
    destruct (IH Hnodup Hconv (<[k := n0]> acc)) as (loaded & Hrun & Hlook).
    exists loaded. split.
    { cbn [comprehension]. rewrite Hn0. exact Hrun. }
    intros key n. rewrite Hlook. unfold py_str.
    cbn [fmap list_fmap fst].
    destruct (decide (key = k)) as [->|Hne].
    + rewrite lookup_insert_eq. split.
      * intros [(v' & Hin & _) | [_ [= <-]]].
        -- destruct Hfresh. apply list_elem_of_fmap. by exists (k, v').
        -- left. exists v. split; [by left|done].
      * intros [(v' & Hin & Hv') | [Hnot _]].
        -- apply elem_of_cons in Hin as [[= <-] | Hin].
           ++ right. split; [done|]. congruence.
           ++ destruct Hfresh. apply list_elem_of_fmap. by exists (k, v').
        -- destruct Hnot. by left.
    + rewrite lookup_insert_ne by done. split.
      * intros [(v' & Hin & Hv') | [Hnot Hacc]].
        -- left. exists v'. split; [by right|done].
        -- right. split; [|done]. intros Hin.
           by apply elem_of_cons in Hin as [?|?].
      * intros [(v' & Hin & Hv') | [Hnot Hacc]].
        -- apply elem_of_cons in Hin as [[= ? ?] | Hin]; [done|].
           left. by exists v'.
        -- right. split; [|done]. intros ?. apply Hnot. by right.
Qed.

(** X7. When the file holds a JSON object whose values [int] converts
    (integers, Booleans, finite floats, numeric strings), [_load] returns
    and replaces the mapping by the one that binds each key of the object
    to the integer of its value; what was in memory before is dropped,
    and nothing but the mapping changes. *)
Theorem _load_converts `{Runtime} (s : state) (contents : string)
    (items : list (string * json)) :
  disk s = Text contents ->
  json_load contents = Ok (JObj items) ->
  NoDup items.*1 ->
  Forall (fun item => exists n, py_int item.2 = Ok n) items ->
  exists loaded,
    _load s = Some (Ok tt, set_moves loaded s)
    /\ forall key n,
         loaded !! key = Some n <->
         exists v, (key, v) ∈ items /\ py_int v = Ok n.
Proof.
  intros Hdisk Hjson Hnodup Hconv.
  destruct (comprehension_converts items Hnodup Hconv ∅)
    as (loaded & Hrun & Hlook).
  exists loaded. split.
  - rewrite (_load_text s contents Hdisk). unfold parse_moves.
    rewrite Hjson. cbn [mbind result_bind dict_items]. by rewrite Hrun.
  - intros key n. rewrite Hlook. split.
    + intros [Hin | [_ Hempty]]; [done|]. by rewrite lookup_empty in Hempty.
    + intros Hin. by left.
Qed.

Lemma _load_converts_witness :
  let items := [("a", JStr " 3 "); ("b", JBool true);
                ("c", JFloat (FFinite 5 (-1)))] in
  let rt := fixed_runtime (Ok (JObj items)) "" in
  let s := set_disk (Text "{...}") taught_once in
  disk s = Text "{...}" /\
  @json_load rt "{...}" = Ok (JObj items) /\
  exists loaded,
    @_load rt s = Some (Ok tt, set_moves loaded s)
    /\ forall key n,
         loaded !! key = Some n <->
         exists v, (key, v) ∈ items /\ @py_int rt v = Ok n.
Proof.
  intros items rt s. split; [reflexivity|]. split; [reflexivity|].
  apply (@_load_converts rt s "{...}" items eq_refl eq_refl).
  - by apply (bool_decide_unpack _).
  - repeat (constructor; [eexists; reflexivity|]). constructor.
Defined.

Lemma comprehension_fails `{Runtime} (pre post : list (string * json))
    (key : string) (value : json) (e : exn) :
  Forall (fun item => exists n, py_int item.2 = Ok n) pre ->
  py_int value = Raise e ->
  forall acc, comprehension (pre ++ (key, value) :: post) acc = Raise e.
Proof.
  intros Hpre Hvalue. induction Hpre as [|[k v] pre [n Hn] _ IH]; intros acc.
  - cbn. by rewrite Hvalue.
  - cbn in Hn |- *. rewrite Hn. apply IH.
Qed.

(** X8. A JSON object is loaded whole or not at all: when [int] raises
    on one of its values, whatever the values before it, [_load] keeps no
    part of the object; it empties the mapping if the handler lists the
    exception and otherwise raises it with the state as it was. *)
Theorem _load_all_or_nothing `{Runtime} (s : state) (contents : string)
    (pre post : list (string * json)) (key : string) (value : json)
    (e : exn) :
  disk s = Text contents ->
  json_load contents = Ok (JObj (pre ++ (key, value) :: post)) ->
  Forall (fun item => exists n, py_int item.2 = Ok n) pre ->
  py_int value = Raise e ->
  _load s
  = Some (if caught_by [JSONDecodeError; OSError; ValueError] e
          then (Ok tt, set_moves ∅ s)
          else (Raise e, s)).
Proof.
  intros Hdisk Hjson Hpre Hvalue.
  rewrite (_load_text s contents Hdisk). unfold parse_moves.
  rewrite Hjson. cbn [mbind result_bind dict_items].
  rewrite (comprehension_fails pre post key value e Hpre Hvalue).
  by destruct (caught_by _ e).
Qed.

Lemma _load_all_or_nothing_witness :
  let rt := fixed_runtime (Ok (JObj [("a", JInt 1); ("b", JStr "x")])) "" in
  let s := set_disk (Text "{...}") taught_once in
  disk s = Text "{...}" /\
  @py_int rt (JStr "x") = Raise ValueError /\
  @_load rt s = Some (Ok tt, set_moves ∅ s).
Proof.
  intros rt s. split; [reflexivity|]. split; [reflexivity|].
  apply (@_load_all_or_nothing rt s "{...}"
           [("a", JInt 1)] [] "b" (JStr "x") ValueError eq_refl eq_refl).
  - repeat (constructor; [eexists; reflexivity|]). constructor.
  - reflexivity.
Defined.



(** ** More on the knowledge base: teaching *)





(** ** More on the move of the human: which line is taken *)

Section Entries.
Context `{Runtime}.

Lemma request_human_move_turned_down (s : state) (line : string)
    (rest : list string) :
  stdin s = line :: rest ->
  turned_down (board s) line ->
  request_human_move s
  = request_human_move
      (after_print Msg.invalid_move (after_input Msg.move_prompt rest s)).
Proof.
  intros Hin [Hnum | (n & Hnum & Hint & Hvalid)].
  - by apply (request_human_move_rejects_non_numeric s line rest).
  - by apply (request_human_move_rejects_invalid s line rest n).
Qed.

(** X12. [request_human_move] returns the first entry that names a
    playable cell: when the lines before it are all turned down, it
    returns that cell's index with exactly those lines and the entry
    read, having written the prompt and the message once for each line
    turned down and the prompt once more, and nothing else changed. *)
Theorem request_human_move_first_taken (s : state) (pre : list string)
    (line : string) (rest : list string) (p : Z) :
  stdin s = (pre ++ line :: rest)%list ->
  Forall (turned_down (board s)) pre ->
  taken (board s) line p ->
  exists s',
    request_human_move s = Some (Ok p, s')
    /\ stdin s' = rest
    /\ stdout s'
       = (stdout s ++ asked_again Msg.move_prompt Msg.invalid_move pre
          ++ [Msg.move_prompt])%list
    /\ board s' = board s /\ moves s' = moves s /\ disk s' = disk s.
Proof.
  revert s. induction pre as [|l pre IH]; intros s Hin Hpre Htaken.
  - destruct Htaken as (Hnum & Hint & Hvalid).
    exists (after_input Msg.move_prompt rest s). split; [|done].
    unfold request_human_move, input_loop. rewrite while_true_step.
    rewrite (request_human_move_body_line s line rest Hin). cbv zeta.
    rewrite Hnum, Hint. replace (p + 1 - 1) with p by lia.
    by rewrite Hvalid.
  - apply Forall_cons in Hpre as [Hl Hpre].
    rewrite (request_human_move_turned_down s l (pre ++ line :: rest) Hin Hl).
    destruct (IH (after_print Msg.invalid_move
                    (after_input Msg.move_prompt (pre ++ line :: rest) s)))
      as (s' & Hrun & Hrest & Hout & Hb & Hm & Hd); [done..|].
    unfold after_input in *. unfold after_print in *. state_simpl.
    exists s'. split; [done|]. split; [done|]. split; [|done].
    rewrite Hout. cbn [asked_again flat_map]. by rewrite <- !app_assoc.
Qed.

(** X13. When every line left is turned down, [request_human_move]
    reads them all, asking again after each, and then raises [EOFError]
    at its prompt; the board is as it was. *)
Theorem request_human_move_eof (s : state) :
  Forall (turned_down (board s)) (stdin s) ->
  exists s',
    request_human_move s = Some (Raise EOFError, s')
    /\ stdin s' = []
    /\ stdout s'
       = (stdout s
          ++ asked_again Msg.move_prompt Msg.invalid_move (stdin s)
          ++ [Msg.move_prompt])%list
    /\ board s' = board s.
Proof.
  remember (stdin s) as lines eqn:Hin. symmetry in Hin.
  revert s Hin. induction lines as [|l lines IH]; intros s Hin Hall.
  - exists (after_print Msg.move_prompt s).
    split; [|unfold after_print; state_simpl; done].
    unfold request_human_move, input_loop. rewrite while_true_step.
    by rewrite (request_human_move_body_eof s Hin).
  - apply Forall_cons in Hall as [Hl Hall].
    rewrite (request_human_move_turned_down s l lines Hin Hl).
    destruct (IH (after_print Msg.invalid_move
                    (after_input Msg.move_prompt lines s)))
      as (s' & Hrun & Hrest & Hout & Hb); [done..|].
    unfold after_input in *. unfold after_print in *. state_simpl.
    exists s'. split; [done|]. split; [done|]. split; [|done].
    rewrite Hout. cbn [asked_again flat_map]. by rewrite <- !app_assoc.
Qed.




End Entries.

Lemma request_human_move_first_taken_witness :
  let rt := fixed_runtime (Raise JSONDecodeError) "" in
  let s := State centre_taken ∅ ["x"; "0"; "5"; " 9 "; "1"] [] Missing true in
  stdin s = (["x"; "0"; "5"] ++ " 9 " :: ["1"])%list /\
  Forall (@turned_down rt (board s)) ["x"; "0"; "5"] /\
  @taken rt (board s) " 9 " 8 /\
  exists s',
    @request_human_move rt s = Some (Ok 8, s')
    /\ stdin s' = ["1"]
    /\ stdout s'
       = (stdout s
          ++ asked_again Msg.move_prompt Msg.invalid_move ["x"; "0"; "5"]
          ++ [Msg.move_prompt])%list
    /\ board s' = board s /\ moves s' = moves s /\ disk s' = disk s.
Proof.
  intros rt s.
  assert (Hpre : Forall (@turned_down rt (board s)) ["x"; "0"; "5"]).
  { constructor; [by left|].
    constructor; [right; by exists 0|].
    constructor; [right; by exists 5|]. constructor. }
  assert (Htaken : @taken rt (board s) " 9 " 8) by done.
  split; [reflexivity|]. split; [exact Hpre|]. split; [exact Htaken|].
  exact (@request_human_move_first_taken rt s ["x"; "0"; "5"] " 9 " ["1"] 8
           eq_refl Hpre Htaken).
Defined.

Lemma request_human_move_eof_witness :
  let rt := fixed_runtime (Raise JSONDecodeError) "" in
  let s := State centre_taken ∅ ["x"; "5"] [] Missing true in
  Forall (@turned_down rt (board s)) (stdin s) /\
  exists s',
    @request_human_move rt s = Some (Raise EOFError, s')
    /\ stdin s' = []
    /\ stdout s'
       = (stdout s
          ++ asked_again Msg.move_prompt Msg.invalid_move (stdin s)
          ++ [Msg.move_prompt])%list
    /\ board s' = board s.
Proof.
  intros rt s.
  assert (Hall : Forall (@turned_down rt (board s)) (stdin s)).
  { constructor; [by left|].
    constructor; [right; by exists 5|]. constructor. }
  split; [exact Hall|].
  exact (@request_human_move_eof rt s Hall).
Defined.


(** ** More on a round: how it ends *)

Section RoundOutcome.
Context `{Runtime}.

(** The second half of a pass leaves the loop only on a winner, after
    showing the board and announcing the outcome. *)
Lemma conclude_turn_returns (current_player : string) (s s' : state) :
  conclude_turn current_player s = Some (Ok (inr tt), s') ->
  exists winner text,
    check_winner (board s) = Ok (Some winner)
    /\ s' = after_print (outcome_message winner) (after_print text s).
Proof.
  unfold conclude_turn, Game.check_winner, lift, mbind, mret, M_bind, M_ret.
  destruct (check_winner (board s)) as [[winner|]|e]; try done.
  destruct (truthy (Some winner)); [|done].
  destruct (display_outcome s) as [(text & ->) | (e & ->)]; [|done].
  intros Hend. exists winner, text. split; [done|].
  unfold outcome_message, print, modify in *.
  destruct (decide (winner = "Empate")) as [->|Hdraw].
  - rewrite !bool_decide_eq_true_2 in * by done. by injection Hend as <-.
  - rewrite (bool_decide_eq_false_2 (Some winner = Some "Empate")) in Hend
      by congruence.
    rewrite (bool_decide_eq_false_2 (winner = "Empate")) by done.
    destruct (decide (winner = HUMAN)) as [->|Hhuman].
    + rewrite !bool_decide_eq_true_2 in * by done. by injection Hend as <-.
    + rewrite (bool_decide_eq_false_2 (Some winner = Some HUMAN)) in Hend
        by congruence.
      rewrite (bool_decide_eq_false_2 (winner = HUMAN)) by done.
      by injection Hend as <-.
Qed.

(** A pass that leaves the loop of the round leaves a decided board of
    the game, with the outcome as the last thing written. *)
Lemma play_round_body_returns (n : nat) (current_player : string)
    (s s' : state) :
  round_at n current_player s ->
  play_round_body current_player s = Some (Ok (inr tt), s') ->
  valid_board (board s')
  /\ exists winner,
       check_winner (board s') = Ok (Some winner)
       /\ (winner = "Empate" \/ is_mark winner)
       /\ last (stdout s') = Some (outcome_message winner).
Proof.
  intros Hround Hbody. unfold play_round_body, mbind, M_bind in Hbody.
  destruct (take_turn current_player s) as [[[[]|e] s1]|] eqn:Htake;
    try done.
  pose proof (round_at_valid _ _ _ Hround) as Hvalid.
  apply round_at_holds in Hround as (_ & Hturn & _).
  apply take_turn_returns in Htake as (cell & _ & Hboard).
  assert (Hvalid1 : valid_board (board s1)).
  { rewrite Hboard. apply valid_board_insert; [done|].
    destruct Hturn as [[_ ->] | [_ ->]]; [by left | by right]. }
  apply conclude_turn_returns in Hbody as (winner & text & Hwinner & ->).
  unfold after_print. state_simpl. split; [done|].
  exists winner. split; [done|]. split; [|by rewrite last_snoc].
  destruct (check_winner_cases (board s1) Hvalid1)
    as [(m & Hm & _ & Hw) | [(_ & _ & Hw) | (_ & _ & Hw)]];
    rewrite Hw in Hwinner.
  - injection Hwinner as ->. by right.
  - injection Hwinner as <-. by left.
  - done.
Qed.

(** X15. Every round ends, within the nine passes of its loop; when it
    returns rather than raises, the board is a board of the game on which
    [check_winner] names a mark or the draw, and the message for that
    outcome is the last thing written. *)
Theorem play_round_decides (s : state) :
  exists r s',
    play_round s = Some (r, s')
    /\ (r = Ok tt ->
        valid_board (board s')
        /\ exists winner,
             check_winner (board s') = Ok (Some winner)
             /\ (winner = "Empate" \/ is_mark winner)
             /\ last (stdout s') = Some (outcome_message winner)).
Proof.
  pose proof (play_round_ends s) as Hends.
  destruct (play_round s) as [[r s']|] eqn:Hplay; [|done].
  exists r, s'. split; [done|]. intros ->. revert Hplay.
  unfold play_round, Game.init, KnowledgeBase.init, print, modify,
    mbind, M_bind.
  destruct (_load (set_moves ∅ (set_board init_board s)))
    as [[[[]|e] s1]|] eqn:Hload; try done.
  apply (while_true_returns play_round_body
           (fun cp s0 => exists n, round_at n cp s0)
           (fun _ s0 =>
              valid_board (board s0)
              /\ exists winner,
                   check_winner (board s0) = Ok (Some winner)
                   /\ (winner = "Empate" \/ is_mark winner)
                   /\ last (stdout s0) = Some (outcome_message winner))).
  - intros cp s0 cp' s0' [n Hround] Hbody. exists (S n).
    by eapply round_next.
  - intros cp s0 [] s0' [n Hround] Hbody.
    by eapply play_round_body_returns.
  - exists 0%nat. apply round_start. apply _load_keeps_board in Hload.
    state_simpl. by rewrite Hload.
Qed.

End RoundOutcome.

(** ** The session *)

Lemma lower_is_s (text : string) :
  lower text = "s" <-> text = "s" \/ text = "S".
Proof.
  split.
  - destruct text as [|c [|c' rest]]; try done. cbn [lower].
    intros [= Hc]. revert Hc.
    destruct c as [[] [] [] [] [] [] [] []]; try done; auto.
  - by intros [-> | ->].
Qed.

Section SessionLoop.
Context `{Runtime}.

Lemma _load_keeps_stdin (s s' : state) (r : result unit) :
  _load s = Some (r, s') -> stdin s' = stdin s.
Proof.
  destruct (disk s) as [| | |contents] eqn:Hdisk.
  - rewrite (_load_missing s Hdisk). by intros [= _ <-].
  - rewrite (_load_unreadable s); [|by left]. by intros [= _ <-].
  - rewrite (_load_unreadable s); [|by right]. by intros [= _ <-].
  - rewrite (_load_text s contents Hdisk).
    destruct (parse_moves contents) as [loaded|e]; [by intros [= _ <-]|].
    destruct (caught_by _ e); by intros [= _ <-].
Qed.

(** A loop over the input whose passes do not put lines back returns
    with no more lines left than it began with. *)
Lemma input_loop_reads {A} (body : unit -> M (unit + A)) :
  (forall s r s', body tt s = Some (Ok r, s') ->
                  (length (stdin s') <= length (stdin s))%nat) ->
  forall s a s', input_loop body s = Some (Ok a, s') ->
                 (length (stdin s') <= length (stdin s))%nat.
Proof.
  intros Hbody s a s' Hloop. unfold input_loop in Hloop.
  eapply (while_true_returns body
            (fun _ s0 => (length (stdin s0) <= length (stdin s))%nat)
            (fun _ s0 => (length (stdin s0) <= length (stdin s))%nat));
    [| | |exact Hloop].
  - intros [] s0 [] s1 Hle Hrun. specialize (Hbody _ _ _ Hrun). lia.
  - intros [] s0 b s1 Hle Hrun. specialize (Hbody _ _ _ Hrun). lia.
  - done.
Qed.

Lemma request_human_move_reads (s s' : state) (position : Z) :
  request_human_move s = Some (Ok position, s') ->
  (length (stdin s') <= length (stdin s))%nat.
Proof.
  apply input_loop_reads. intros s0 [[]|p] s1 Hrun.
  - apply request_human_move_body_again in Hrun as (l & rest & -> & ->).
    cbn. lia.
  - apply request_human_move_body_returns in Hrun
      as (_ & l & rest & -> & ->).
    cbn. lia.
Qed.

Lemma ask_for_learning_reads (s s' : state) (position : Z) :
  ask_for_learning s = Some (Ok position, s') ->
  (length (stdin s') <= length (stdin s))%nat.
Proof.
  rewrite ask_for_learning_unfold. intros Hrun.
  apply (input_loop_reads ask_for_learning_body) in Hrun; [done|].
  intros s0 [[]|p] s1 Hbody.
  - apply ask_for_learning_body_again in Hbody as (l & rest & -> & ->).
    cbn. lia.
  - apply ask_for_learning_body_returns in Hbody
      as (_ & _ & l & rest & -> & ->).
    cbn. lia.
Qed.

Lemma ai_move_reads (s s' : state) (position : Z) :
  ai_move s = Some (Ok position, s') ->
  (length (stdin s') <= length (stdin s))%nat.
Proof.
  rewrite ai_move_unfold.
  destruct (moves s !! board_key (board s)) as [stored|];
    [destruct (is_valid_move (board s) stored) as [[]|e]; try done|].
  - by intros [= _ <-].
  - apply ask_for_learning_reads.
  - apply ask_for_learning_reads.
Qed.

Lemma take_turn_reads (current_player : string) (s s' : state) :
  take_turn current_player s = Some (Ok tt, s') ->
  (length (stdin s') <= length (stdin s))%nat.
Proof.
  unfold take_turn, mbind, M_bind.
  destruct (display_outcome s) as [(text & ->) | (e & ->)]; [|done].
  assert (Hmove : forall position s1,
             Game.apply_move position current_player s1 = Some (Ok tt, s') ->
             stdin s' = stdin s1).
  { intros position s1. unfold Game.apply_move.
    destruct (apply_move _ _ _); by intros [= <-]. }
  destruct (String.eqb current_player HUMAN).
  - destruct (request_human_move _) as [[[position|e] s1]|] eqn:Hreq;
      try done.
    apply request_human_move_reads in Hreq. intros Happly.
    by rewrite (Hmove _ _ Happly).
  - unfold print at 1, modify. cbn beta iota.
    destruct (ai_move _) as [[[position|e] s1]|] eqn:Hai; try done.
    apply ai_move_reads in Hai. intros Happly.
    by rewrite (Hmove _ _ Happly).
Qed.

Lemma conclude_turn_reads (current_player : string) (s s' : state)
    (r : string + unit) :
  conclude_turn current_player s = Some (Ok r, s') -> stdin s' = stdin s.
Proof.
  destruct r as [next|[]]; intros Hend.
  - by apply conclude_turn_again in Hend as (-> & _).
  - by apply conclude_turn_returns in Hend as (winner & text & _ & ->).
Qed.

Lemma play_round_body_reads (current_player : string) (s s' : state)
    (r : string + unit) :
  play_round_body current_player s = Some (Ok r, s') ->
  (length (stdin s') <= length (stdin s))%nat.
Proof.
  unfold play_round_body, mbind, M_bind.
  destruct (take_turn current_player s) as [[[[]|e] s1]|] eqn:Htake;
    try done.
  apply take_turn_reads in Htake. intros Hend.
  by rewrite (conclude_turn_reads _ _ _ _ Hend).
Qed.

Lemma play_round_reads (s s' : state) :
  play_round s = Some (Ok tt, s') ->
  (length (stdin s') <= length (stdin s))%nat.
Proof.
  unfold play_round, Game.init, KnowledgeBase.init, print, modify,
    mbind, M_bind.
  destruct (_load (set_moves ∅ (set_board init_board s)))
    as [[[[]|e] s1]|] eqn:Hload; try done.
  apply _load_keeps_stdin in Hload. state_simpl.
  apply (while_true_returns play_round_body
           (fun _ s0 => (length (stdin s0) <= length (stdin s))%nat)
           (fun _ s0 => (length (stdin s0) <= length (stdin s))%nat)).
  - intros cp s0 cp' s0' Hle Hrun.
    apply play_round_body_reads in Hrun. lia.
  - intros cp s0 [] s0' Hle Hrun.
    apply play_round_body_reads in Hrun. lia.
  - state_simpl. by rewrite Hload.
Qed.

(** What a pass of [main] does once its round has returned. *)
Lemma main_body_after_round (s s1 : state) :
  play_round s = Some (Ok tt, s1) ->
  main_body tt s =
  match stdin s1 with
  | [] => Some (Raise EOFError, after_print replay_prompt s1)
  | line :: rest =>
      if bool_decide (lower (strip line) = "s")
      then Some (Ok (inl tt), after_input replay_prompt rest s1)
      else Some (Ok (inr tt),
                 after_print goodbye (after_input replay_prompt rest s1))
  end.
Proof.
  intros Hround.
  unfold main_body, input, print, modify, after_input, after_print,
    mbind, mret, M_bind, M_ret.
  rewrite Hround. state_simpl.
  destruct (stdin s1) as [|line rest]; [done|].
  rewrite String_eqb_eq. by case_bool_decide.
Qed.

Lemma main_body_ends (s : state) : main_body tt s <> None.
Proof.
  pose proof (play_round_ends s) as Hends.
  destruct (play_round s) as [[[[]|e] s1]|] eqn:Hround; [| |done].
  - rewrite (main_body_after_round s s1 Hround).
    destruct (stdin s1); [done|]. by case_bool_decide.
  - unfold main_body, mbind, M_bind. by rewrite Hround.
Qed.

Lemma main_body_cases (s s' : state) (r : unit + unit) :
  main_body tt s = Some (Ok r, s') ->
  (length (stdin s') < length (stdin s))%nat
  /\ (r = inr tt -> last (stdout s') = Some goodbye).
Proof.
  destruct (play_round s) as [[[[]|e] s1]|] eqn:Hround.
  - rewrite (main_body_after_round s s1 Hround).
    apply play_round_reads in Hround.
    destruct (stdin s1) as [|line rest] eqn:Hin; [done|].
    cbn [length] in Hround.
    case_bool_decide; intros [= <- <-];
      unfold after_input, after_print; state_simpl.
    + split; [lia|done].
    + split; [lia|]. intros _. by rewrite last_snoc.
  - unfold main_body, mbind, M_bind. by rewrite Hround.
  - unfold main_body, mbind, M_bind. by rewrite Hround.
Qed.

(** X16. [main] ends on every input: each pass that goes round again
    has read the answer to its question, so the lines run out. When it
    returns rather than raises, the farewell is the last thing written. *)
Theorem main_ends (s : state) :
  exists r s',
    main s = Some (r, s')
    /\ (r = Ok tt -> last (stdout s') = Some goodbye).
Proof.
  assert (Hends : main s <> None).
  { apply (input_loop_ends main_body); [apply main_body_ends|].
    intros s0 s1 Hbody. by apply main_body_cases in Hbody as [? _]. }
  destruct (main s) as [[r s']|] eqn:Hmain; [|done].
  exists r, s'. split; [done|]. intros ->. revert Hmain. unfold main.
  apply (while_true_returns main_body (fun _ _ => True)
           (fun _ s0 => last (stdout s0) = Some goodbye)); [done| |done].
  intros [] s0 [] s1 _ Hbody. apply main_body_cases in Hbody as [_ Hlast].
  by apply Hlast.
Qed.

(** X17. After a round that returned, [main] plays another exactly when
    the answer to its question is [s] or [S], blanks around it apart; on
    any other answer it writes the farewell and returns, and with no
    answer left it raises [EOFError]. *)
Theorem main_body_answer (s s1 : state) :
  play_round s = Some (Ok tt, s1) ->
  match stdin s1 with
  | [] => main_body tt s = Some (Raise EOFError, after_print replay_prompt s1)
  | line :: rest =>
      (strip line = "s" \/ strip line = "S" ->
       main_body tt s = Some (Ok (inl tt), after_input replay_prompt rest s1))
      /\ (~ (strip line = "s" \/ strip line = "S") ->
          main_body tt s
          = Some (Ok (inr tt),
                  after_print goodbye (after_input replay_prompt rest s1)))
  end.
Proof.
  intros Hround. rewrite (main_body_after_round s s1 Hround).
  destruct (stdin s1) as [|line rest]; [done|]. split.
  - intros Hyes. apply lower_is_s in Hyes.
    by rewrite bool_decide_eq_true_2.
  - intros Hno. rewrite bool_decide_eq_false_2; [done|].
    by rewrite lower_is_s.
Qed.

End SessionLoop.

Lemma main_body_answer_witness :
  let rt := fixed_runtime (Raise JSONDecodeError) "" in
  @play_round rt quick_win = Some (Ok tt, after_quick_win) /\
  stdin after_quick_win = [" N "] /\
  @main_body rt tt quick_win
  = Some (Ok (inr tt),
          after_print goodbye (after_input replay_prompt [] after_quick_win)).
Proof.
  intros rt.
  assert (Hround : @play_round rt quick_win = Some (Ok tt, after_quick_win))
    by (vm_compute; reflexivity).
  split; [exact Hround|]. split; [reflexivity|].
  pose proof (@main_body_answer rt quick_win after_quick_win Hround) as Hans.
  change (stdin after_quick_win) with [" N "] in Hans.
  apply Hans. by intros [? | ?].
Defined.
